(** * teleop_twist_joy: joystick samples to velocity commands

    A shallow embedding of [src/teleop_twist_joy.cpp] and the properties of
    its mode selection, autorun ramp, stop command and parameter callback.

    Conventions of the embedding.
    - [int64_t] and the [int32] button values are [Z]; no arithmetic of the
      file can leave the 64-bit range on values read from a sample.
    - [float] and [float_t] are IEEE binary32 and [double] is binary64, both
      as [spec_float] of the Standard Library with its correctly rounded
      operations: products and sums round, conversions to [float] round and
      overflow to an infinity, comparisons with a NaN are false.
    - [std::map<std::string, T>] is [gmap string T]; [operator[]] on a map
      inserts a value-initialised entry when the key is absent, and that
      insertion is part of the state.
    - [joy_msg->axes[i]] and [joy_msg->buttons[i]] are unchecked in C++.
      Every such access is recorded as an [Index] event with the index and
      the size of the vector.  An access outside the vector is undefined
      behaviour: the process may read whatever lies there, given by the
      section variables [wild_button] and [wild_axis], or be killed by the
      system.  The embedding follows the run that reads on; what it says of
      the members and of the commands after such an access describes that run
      only, so the theorems on the commands of a sample assume, with
      [all_within], that no access of the sample left its vector.
    - publishing on [cmd_vel] and the [RCLCPP_INFO] line are events of the
      same trace. *)

From Stdlib Require Import ZArith Floats.SpecFloat Lia.
From stdpp Require Import base option list gmap strings.

Open Scope Z_scope.

(** ** Floating point

    [float] is IEEE binary32 and [double] binary64.  [float_t] is [float] on
    the targets of ROS 2 (x86-64 and aarch64, [FLT_EVAL_METHOD] 0). *)

Abbreviation float := spec_float.
Abbreviation double := spec_float.

Module Float.

Definition prec : Z := 24.
Definition emax : Z := 128.

Definition zero : float := S754_zero false.
(** [1.0f] *)
Definition one : float := SFone prec emax.
(** an integer literal converted to [float] *)
Definition of_Z (z : Z) : float := binary_normalize prec emax z 0 false.
Definition add : float → float → float := SFadd prec emax.
Definition div : float → float → float := SFdiv prec emax.
(** The [float] nearest to [n / d]. *)
Definition ratio (n d : Z) : float := div (of_Z n) (of_Z d).
(** The conversion of a [double] to [float]: to nearest, ties to even, an
    infinity on overflow. *)
Definition of_double (d : double) : float :=
  match d with
  | S754_finite s m e => binary_round prec emax s m e
  | _ => d
  end.

End Float.

Module Double.

Definition prec : Z := 53.
Definition emax : Z := 1024.

Definition zero : double := S754_zero false.
Definition of_Z (z : Z) : double := binary_normalize prec emax z 0 false.
Definition add : double → double → double := SFadd prec emax.
Definition mul : double → double → double := SFmul prec emax.
Definition div : double → double → double := SFdiv prec emax.
(** The [double] nearest to [n / d], as a decimal literal denotes it. *)
Definition ratio (n d : Z) : double := div (of_Z n) (of_Z d).
(** The promotion of a [float] to [double], which is exact. *)
Definition of_float (f : float) : double :=
  match f with
  | S754_finite s m e => binary_round prec emax s m e
  | _ => f
  end.

End Double.

(** ** Messages *)

Module Msg.

(** [sensor_msgs::msg::Joy]: [float32[] axes], [int32[] buttons]. *)
Record Joy := { axes : list float; buttons : list Z }.

(** [geometry_msgs::msg::Vector3] and [geometry_msgs::msg::Twist]. *)
Record Vector3 := { x : double; y : double; z : double }.
Record Twist := { linear : Vector3; angular : Vector3 }.

(** A default-constructed [Twist]: "Initializes with zeros by default." *)
Definition zero : Twist :=
  {| linear := {| x := Double.zero; y := Double.zero; z := Double.zero |};
     angular := {| x := Double.zero; y := Double.zero; z := Double.zero |} |}.

End Msg.

Import Msg(Joy, axes, buttons, Twist, Vector3).

(** ** The members of [TeleopTwistJoy::Impl] *)

Record Impl := {
  require_enable_button : bool;
  autorun_flag : bool;
  enable_button : Z;
  enable_turbo_button : Z;
  enable_autorun_button : Z;
  autorun_buffer : Z;
  axis_linear_map : gmap string Z;
  scale_linear_map : gmap string (gmap string double);
  axis_angular_map : gmap string Z;
  axis_angular_adjustment_map : gmap string Z;
  scale_angular_map : gmap string (gmap string double);
  speed_x_max : float;
  sent_disable_msg : bool
}.

Definition set_require_enable_button (v : bool) (s : Impl) : Impl :=
  Build_Impl v (autorun_flag s) (enable_button s) (enable_turbo_button s)
    (enable_autorun_button s) (autorun_buffer s) (axis_linear_map s)
    (scale_linear_map s) (axis_angular_map s) (axis_angular_adjustment_map s)
    (scale_angular_map s) (speed_x_max s) (sent_disable_msg s).

Definition set_autorun_flag (v : bool) (s : Impl) : Impl :=
  Build_Impl (require_enable_button s) v (enable_button s) (enable_turbo_button s)
    (enable_autorun_button s) (autorun_buffer s) (axis_linear_map s)
    (scale_linear_map s) (axis_angular_map s) (axis_angular_adjustment_map s)
    (scale_angular_map s) (speed_x_max s) (sent_disable_msg s).

Definition set_enable_button (v : Z) (s : Impl) : Impl :=
  Build_Impl (require_enable_button s) (autorun_flag s) v (enable_turbo_button s)
    (enable_autorun_button s) (autorun_buffer s) (axis_linear_map s)
    (scale_linear_map s) (axis_angular_map s) (axis_angular_adjustment_map s)
    (scale_angular_map s) (speed_x_max s) (sent_disable_msg s).

Definition set_enable_turbo_button (v : Z) (s : Impl) : Impl :=
  Build_Impl (require_enable_button s) (autorun_flag s) (enable_button s) v
    (enable_autorun_button s) (autorun_buffer s) (axis_linear_map s)
    (scale_linear_map s) (axis_angular_map s) (axis_angular_adjustment_map s)
    (scale_angular_map s) (speed_x_max s) (sent_disable_msg s).

Definition set_enable_autorun_button (v : Z) (s : Impl) : Impl :=
  Build_Impl (require_enable_button s) (autorun_flag s) (enable_button s)
    (enable_turbo_button s) v (autorun_buffer s) (axis_linear_map s)
    (scale_linear_map s) (axis_angular_map s) (axis_angular_adjustment_map s)
    (scale_angular_map s) (speed_x_max s) (sent_disable_msg s).

Definition set_autorun_buffer (v : Z) (s : Impl) : Impl :=
  Build_Impl (require_enable_button s) (autorun_flag s) (enable_button s)
    (enable_turbo_button s) (enable_autorun_button s) v (axis_linear_map s)
    (scale_linear_map s) (axis_angular_map s) (axis_angular_adjustment_map s)
    (scale_angular_map s) (speed_x_max s) (sent_disable_msg s).

Definition set_axis_linear_map (v : gmap string Z) (s : Impl) : Impl :=
  Build_Impl (require_enable_button s) (autorun_flag s) (enable_button s)
    (enable_turbo_button s) (enable_autorun_button s) (autorun_buffer s) v
    (scale_linear_map s) (axis_angular_map s) (axis_angular_adjustment_map s)
    (scale_angular_map s) (speed_x_max s) (sent_disable_msg s).

Definition set_scale_linear_map (v : gmap string (gmap string double)) (s : Impl) : Impl :=
  Build_Impl (require_enable_button s) (autorun_flag s) (enable_button s)
    (enable_turbo_button s) (enable_autorun_button s) (autorun_buffer s)
    (axis_linear_map s) v (axis_angular_map s) (axis_angular_adjustment_map s)
    (scale_angular_map s) (speed_x_max s) (sent_disable_msg s).

Definition set_axis_angular_map (v : gmap string Z) (s : Impl) : Impl :=
  Build_Impl (require_enable_button s) (autorun_flag s) (enable_button s)
    (enable_turbo_button s) (enable_autorun_button s) (autorun_buffer s)
    (axis_linear_map s) (scale_linear_map s) v (axis_angular_adjustment_map s)
    (scale_angular_map s) (speed_x_max s) (sent_disable_msg s).

Definition set_axis_angular_adjustment_map (v : gmap string Z) (s : Impl) : Impl :=
  Build_Impl (require_enable_button s) (autorun_flag s) (enable_button s)
    (enable_turbo_button s) (enable_autorun_button s) (autorun_buffer s)
    (axis_linear_map s) (scale_linear_map s) (axis_angular_map s) v
    (scale_angular_map s) (speed_x_max s) (sent_disable_msg s).

Definition set_scale_angular_map (v : gmap string (gmap string double)) (s : Impl) : Impl :=
  Build_Impl (require_enable_button s) (autorun_flag s) (enable_button s)
    (enable_turbo_button s) (enable_autorun_button s) (autorun_buffer s)
    (axis_linear_map s) (scale_linear_map s) (axis_angular_map s)
    (axis_angular_adjustment_map s) v (speed_x_max s) (sent_disable_msg s).

Definition set_speed_x_max (v : float) (s : Impl) : Impl :=
  Build_Impl (require_enable_button s) (autorun_flag s) (enable_button s)
    (enable_turbo_button s) (enable_autorun_button s) (autorun_buffer s)
    (axis_linear_map s) (scale_linear_map s) (axis_angular_map s)
    (axis_angular_adjustment_map s) (scale_angular_map s) v (sent_disable_msg s).

Definition set_sent_disable_msg (v : bool) (s : Impl) : Impl :=
  Build_Impl (require_enable_button s) (autorun_flag s) (enable_button s)
    (enable_turbo_button s) (enable_autorun_button s) (autorun_buffer s)
    (axis_linear_map s) (scale_linear_map s) (axis_angular_map s)
    (axis_angular_adjustment_map s) (scale_angular_map s) (speed_x_max s) v.

(** ** Observable events and the monad of member functions *)

Inductive Vec := Axes | Buttons.

Inductive Event :=
| Index (v : Vec) (i : Z) (size : nat)
    (* [operator[]] applied to a vector of the sample *)
| Log (b : Z) (flag sent : bool)
    (* the [RCLCPP_INFO] line of [joyCallback] *)
| Publish (t : Twist).
    (* [cmd_vel_pub->publish] *)

(** A free function over the sample returns a value and appends events. *)
Definition R (A : Type) : Type := A * list Event.

#[global] Instance R_ret : MRet R := λ A a, (a, []).
#[global] Instance R_bind : MBind R := λ A B k m,
  let r := k m.1 in (r.1, m.2 ++ r.2).

Definition record (e : Event) : R unit := (tt, [e]).

(** A member function moreover reads and writes the [Impl]. *)
Definition M (A : Type) : Type := Impl → A * Impl * list Event.

(** What a run leaves behind. *)
Definition value_of {A} (r : A * Impl * list Event) : A := r.1.1.
Definition state_of {A} (r : A * Impl * list Event) : Impl := r.1.2.
Definition trace_of {A} (r : A * Impl * list Event) : list Event := r.2.

#[global] Instance M_ret : MRet M := λ A a st, (a, st, []).
#[global] Instance M_bind : MBind M := λ A B k m st,
  let r1 := m st in
  let r2 := k (value_of r1) (state_of r1) in
  (value_of r2, state_of r2, trace_of r1 ++ trace_of r2).

Definition gets {A} (f : Impl → A) : M A := λ st, (f st, st, []).
Definition modify (f : Impl → Impl) : M unit := λ st, (tt, f st, []).
Definition emit (e : Event) : M unit := λ st, (tt, st, [e]).
Definition call {A} (r : R A) : M A := λ st, (r.1, st, r.2).

Definition published (t : list Event) : list Twist :=
  omap (λ e, match e with Publish m => Some m | _ => None end) t.

(** An [Index] event stays inside its vector. *)
Definition within (e : Event) : bool :=
  match e with
  | Index _ i size => (0 <=? i) && (i <? Z.of_nat size)
  | _ => true
  end.

(** ** [std::map::operator[]] *)

(** [m[k]]: the entry, inserted value-initialised when absent. *)
Definition subscript {V} (dflt : V) (m : gmap string V) (k : string)
  : gmap string V * V :=
  match m !! k with
  | Some v => (m, v)
  | None => (<[k := dflt]> m, dflt)
  end.

(** [m[k1][k2]] on a map of maps. *)
Definition subscript2 (m : gmap string (gmap string double)) (k1 k2 : string)
  : gmap string (gmap string double) * double :=
  let outer := subscript ∅ m k1 in
  let inner := subscript Double.zero outer.2 k2 in
  (<[k1 := inner.1]> outer.1, inner.2).

Definition scale_linear_at (k : string) : M (gmap string double) := λ st,
  let r := subscript ∅ (scale_linear_map st) k in
  (r.2, set_scale_linear_map r.1 st, []).

Definition scale_angular_at (k : string) : M (gmap string double) := λ st,
  let r := subscript ∅ (scale_angular_map st) k in
  (r.2, set_scale_angular_map r.1 st, []).

Definition scale_linear_at2 (k1 k2 : string) : M double := λ st,
  let r := subscript2 (scale_linear_map st) k1 k2 in
  (r.2, set_scale_linear_map r.1 st, []).

Definition scale_angular_at2 (k1 k2 : string) : M double := λ st,
  let r := subscript2 (scale_angular_map st) k1 k2 in
  (r.2, set_scale_angular_map r.1 st, []).

(** [static_cast<int>(v.size())] *)
Definition size_int {A} (l : list A) : Z := Z.of_nat (length l).

Section Callbacks.

(** The contents of memory around the sample's vectors, read when an index
    falls outside them and the process survives the access. *)
Variable wild_button : Z → Z.
Variable wild_axis : Z → float.

(** [joy_msg->buttons[i]], unchecked.  Outside the vector the access is
    undefined behaviour; the event records it, and the run that reads on
    gets [wild_button i]. *)
Definition button_at (joy_msg : Joy) (i : Z) : R Z :=
  record (Index Buttons i (length (buttons joy_msg)));;
  mret (if (0 <=? i) && (i <? size_int (buttons joy_msg))
        then nth (Z.to_nat i) (buttons joy_msg) 0
        else wild_button i).

(** [joy_msg->axes[i]], unchecked in the same way. *)
Definition axis_at (joy_msg : Joy) (i : Z) : R float :=
  record (Index Axes i (length (axes joy_msg)));;
  mret (if (0 <=? i) && (i <? size_int (axes joy_msg))
        then nth (Z.to_nat i) (axes joy_msg) Float.zero
        else wild_axis i).

(** [getVal]: the [float] axis value is promoted to [double] and the product
    with the scale is rounded to [double]. *)
Definition getVal (joy_msg : Joy) (axis_map : gmap string Z)
    (scale_map : gmap string double) (fieldname : string) : R double :=
  match axis_map !! fieldname with
  | None => mret Double.zero
  | Some idx =>
    if idx =? -1 then mret Double.zero
    else match scale_map !! fieldname with
         | None => mret Double.zero
         | Some scale =>
           if size_int (axes joy_msg) <=? idx then mret Double.zero
           else a ← axis_at joy_msg idx; mret (Double.mul (Double.of_float a) scale)
         end
  end.

(** [TeleopTwistJoy::Impl::sendCmdVelMsg].  [speed_x_temporary],
    [speed_yaw_temporary], [limit], [joystick] and [sum] are [float_t]: the
    [double] of [getVal] and the [double] product [1.0f * scale] are rounded
    to single precision when they are stored, the division by 10, the two
    additions and the comparisons are single-precision operations, and the
    two values assigned to the [double] fields of the message are promoted. *)
Definition sendCmdVelMsg (joy_msg : Joy) (which_map : string) : M unit :=
  sl ← scale_linear_at which_map;
  alm ← gets axis_linear_map;
  v ← call (getVal joy_msg alm sl "x");
  let speed_x_temporary := Float.of_double v in
  sa ← scale_angular_at which_map;
  aam ← gets axis_angular_map;
  v ← call (getVal joy_msg aam sa "yaw");
  let speed_yaw_temporary := Float.of_double v in
  flag ← gets autorun_flag;
  '(linear_x, angular_z) ←
    ((if flag : bool then
       limit ← scale_linear_at2 "autorun" "x";
       let limit := Float.of_double (Double.mul (Double.of_float Float.one) limit) in
       modify (λ s, set_speed_x_max
                 (Float.add (speed_x_max s)
                    (Float.div speed_x_temporary (Float.of_Z 10))) s);;
       modify (λ s, set_speed_x_max
                 (if SFltb limit (speed_x_max s) then limit else speed_x_max s) s);;
       modify (λ s, set_speed_x_max
                 (if SFltb (speed_x_max s) (SFopp limit) then SFopp limit
                  else speed_x_max s) s);;
       linear_x ← gets speed_x_max;
       adj ← gets axis_angular_adjustment_map;
       sa' ← scale_angular_at which_map;
       v ← call (getVal joy_msg adj sa' "yaw");
       let joystick := Float.of_double v in
       let sum := Float.add speed_yaw_temporary joystick in
       limit ← scale_angular_at2 "autorun" "yaw";
       let limit := Float.of_double (Double.mul (Double.of_float Float.one) limit) in
       let sum := if SFltb limit sum then limit else sum in
       let sum := if SFltb sum (SFopp limit) then SFopp limit else sum in
       mret (Double.of_float linear_x, Double.of_float sum)
     else mret (Double.of_float speed_x_temporary,
                Double.of_float speed_yaw_temporary)) : M (double * double));
  sl ← scale_linear_at which_map;
  alm ← gets axis_linear_map;
  linear_y ← call (getVal joy_msg alm sl "y");
  sl ← scale_linear_at which_map;
  linear_z ← call (getVal joy_msg alm sl "z");
  sa ← scale_angular_at which_map;
  aam ← gets axis_angular_map;
  angular_y ← call (getVal joy_msg aam sa "pitch");
  sa ← scale_angular_at which_map;
  angular_x ← call (getVal joy_msg aam sa "roll");
  emit (Publish
    {| Msg.linear := {| Msg.x := linear_x; Msg.y := linear_y; Msg.z := linear_z |};
       Msg.angular := {| Msg.x := angular_x; Msg.y := angular_y; Msg.z := angular_z |} |});;
  modify (set_sent_disable_msg false).

(** [TeleopTwistJoy::Impl::joyCallback].  The log statement after the toggle
    block reads [buttons[enable_autorun_button]] without the test that guards
    the block, and the enable test has no lower bound: both accesses can
    leave the vector. *)
Definition joyCallback (joy_msg : Joy) : M unit :=
  eab ← gets enable_autorun_button;
  (if (0 <=? eab) && (eab <? size_int (buttons joy_msg)) then
     autorun_button ← call (button_at joy_msg eab);
     buffer ← gets autorun_buffer;
     (if 0 <? autorun_button - buffer
      then modify (λ s, set_autorun_flag (if autorun_flag s then false else true) s)
      else mret tt);;
     modify (set_autorun_buffer autorun_button)
   else mret tt);;
  b ← call (button_at joy_msg eab);
  flag ← gets autorun_flag;
  sent ← gets sent_disable_msg;
  emit (Log b flag sent);;
  (if negb flag then modify (set_speed_x_max Float.zero) else mret tt);;
  if flag : bool then sendCmdVelMsg joy_msg "autorun"
  else
    etb ← gets enable_turbo_button;
    turbo ← (if (0 <=? etb) && (etb <? size_int (buttons joy_msg))
             then v ← call (button_at joy_msg etb); mret (negb (v =? 0))
             else mret false);
    if turbo : bool then sendCmdVelMsg joy_msg "turbo"
    else
      req ← gets require_enable_button;
      eb ← gets enable_button;
      normal ← (if negb req then mret true
                else if eb <? size_int (buttons joy_msg)
                     then v ← call (button_at joy_msg eb); mret (negb (v =? 0))
                     else mret false);
      if normal : bool then sendCmdVelMsg joy_msg "normal"
      else
        sent ← gets sent_disable_msg;
        if negb sent
        then emit (Publish Msg.zero);; modify (set_sent_disable_msg true)
        else mret tt.

(** *** Names for what the callbacks compute

    The definitions below name parts of the two callbacks so that their
    properties can be stated; each is tied to the monadic code by a lemma. *)

(** The four ways [joyCallback] treats a sample: the three calls of
    [sendCmdVelMsg] and the final [else]. *)
Inductive Mode := Disabled | Normal | Turbo | Autorun.

(** The clamp idiom of [sendCmdVelMsg]:
    [v = v > limit ? limit : v; v = v < -limit ? -limit : v]. *)
Definition clamp (limit v : float) : float :=
  let v := if SFltb limit v then limit else v in
  if SFltb v (SFopp limit) then SFopp limit else v.

(** [speed_x_max += (float_t) speed_x_temporary / 10], where
    [speed_x_temporary] holds the [double] that [getVal] returned. *)
Definition accumulated (speed : float) (input : double) : float :=
  Float.add speed (Float.div (Float.of_double input) (Float.of_Z 10)).

(** [1.0f * scale_linear_map["autorun"]["x"]] and
    [1.0f * scale_angular_map["autorun"]["yaw"]]. *)
Definition x_limit (st : Impl) : float :=
  Float.of_double (Double.mul (Double.of_float Float.one)
                     (subscript2 (scale_linear_map st) "autorun" "x").2).
Definition yaw_limit (st : Impl) : float :=
  Float.of_double (Double.mul (Double.of_float Float.one)
                     (subscript2 (scale_angular_map st) "autorun" "yaw").2).

(** [getVal(joy_msg, axis_linear_map, scale_linear_map[which_map], f)] and its
    two angular counterparts. *)
Definition linear_input (joy_msg : Joy) (st : Impl) (which_map f : string) : double :=
  (getVal joy_msg (axis_linear_map st)
     (subscript ∅ (scale_linear_map st) which_map).2 f).1.
Definition angular_input (joy_msg : Joy) (st : Impl) (which_map f : string) : double :=
  (getVal joy_msg (axis_angular_map st)
     (subscript ∅ (scale_angular_map st) which_map).2 f).1.
Definition adjustment_input (joy_msg : Joy) (st : Impl) (which_map f : string) : double :=
  (getVal joy_msg (axis_angular_adjustment_map st)
     (subscript ∅ (scale_angular_map st) which_map).2 f).1.

(** The members after the toggle block of [joyCallback] (the first [if]). *)
Definition toggled (joy_msg : Joy) (st : Impl) : Impl :=
  let eab := enable_autorun_button st in
  if (0 <=? eab) && (eab <? size_int (buttons joy_msg)) then
    let autorun_button := (button_at joy_msg eab).1 in
    set_autorun_buffer autorun_button
      (if 0 <? autorun_button - autorun_buffer st
       then set_autorun_flag (if autorun_flag st then false else true) st
       else st)
  else st.

(** The members when the mode is chosen: after the toggle block and the reset
    of [speed_x_max]. *)
Definition prepared (joy_msg : Joy) (st : Impl) : Impl :=
  let st := toggled joy_msg st in
  if negb (autorun_flag st) then set_speed_x_max Float.zero st else st.

(** The truth value of [joy_msg->buttons[i]]. *)
Definition pressed (joy_msg : Joy) (i : Z) : bool :=
  negb ((button_at joy_msg i).1 =? 0).

(** The branch of the [if]/[else if] chain taken on members [st]. *)
Definition mode_taken (joy_msg : Joy) (st : Impl) : Mode :=
  if autorun_flag st then Autorun
  else if (0 <=? enable_turbo_button st)
          && (enable_turbo_button st <? size_int (buttons joy_msg))
          && pressed joy_msg (enable_turbo_button st) then Turbo
  else if negb (require_enable_button st)
          || (enable_button st <? size_int (buttons joy_msg))
             && pressed joy_msg (enable_button st) then Normal
  else Disabled.

(** The final [else] of [joyCallback]: "immediately send a single no-motion
    command in order to stop the robot". *)
Definition stop : M unit :=
  sent ← gets sent_disable_msg;
  if negb sent
  then emit (Publish Msg.zero);; modify (set_sent_disable_msg true)
  else mret tt.

(** What each branch runs. *)
Definition handler (joy_msg : Joy) (mode : Mode) : M unit :=
  match mode with
  | Autorun => sendCmdVelMsg joy_msg "autorun"
  | Turbo => sendCmdVelMsg joy_msg "turbo"
  | Normal => sendCmdVelMsg joy_msg "normal"
  | Disabled => stop
  end.

(** The subscription delivers the samples one after the other. *)
Fixpoint spin (samples : list Joy) : M unit :=
  match samples with
  | [] => mret tt
  | joy_msg :: rest => joyCallback joy_msg;; spin rest
  end.

(** The mode of each sample of a run, in order. *)
Fixpoint modes (samples : list Joy) (st : Impl) : list Mode :=
  match samples with
  | [] => []
  | joy_msg :: rest =>
    mode_taken joy_msg (toggled joy_msg st)
    :: modes rest (state_of (joyCallback joy_msg st))
  end.

End Callbacks.

(** ** The constructor

    [declare_parameter] returns the declared default when the node is started
    without overrides; [initial] is the [Impl] the constructor then leaves. *)

Definition initial : Impl :=
  {| require_enable_button := true;
     autorun_flag := false;
     enable_button := 5;
     enable_turbo_button := -1;
     enable_autorun_button := -1;
     autorun_buffer := 0;
     axis_linear_map := <["x" := 5]> (<["y" := -1]> (<["z" := -1]> ∅));
     scale_linear_map :=
       <["normal" := <["x" := Double.ratio 1 2]> (<["y" := Double.zero]> (<["z" := Double.zero]> ∅))]>
       (<["turbo" := <["x" := Double.of_Z 1]> (<["y" := Double.zero]> (<["z" := Double.zero]> ∅))]>
       (<["autorun" := <["x" := Double.of_Z 1]> (<["y" := Double.zero]> (<["z" := Double.zero]> ∅))]> ∅));
     axis_angular_map := <["yaw" := 2]> (<["pitch" := -1]> (<["roll" := -1]> ∅));
     axis_angular_adjustment_map :=
       <["yaw" := 3]> (<["pitch" := -1]> (<["roll" := -1]> ∅));
     scale_angular_map :=
       <["normal" := <["yaw" := Double.ratio 1 2]> (<["pitch" := Double.zero]> (<["roll" := Double.zero]> ∅))]>
       (<["turbo" := <["yaw" := Double.of_Z 1]> (<["pitch" := Double.zero]> (<["roll" := Double.zero]> ∅))]>
       (<["autorun" := <["yaw" := Double.of_Z 1]> (<["pitch" := Double.zero]> (<["roll" := Double.zero]> ∅))]> ∅));
     speed_x_max := Float.zero;
     sent_disable_msg := false |}.

(** ** The parameter callback *)

(** [rclcpp::ParameterType] *)
Inductive ParameterType :=
| PARAMETER_NOT_SET | PARAMETER_BOOL | PARAMETER_INTEGER | PARAMETER_DOUBLE
| PARAMETER_STRING | PARAMETER_BYTE_ARRAY | PARAMETER_BOOL_ARRAY
| PARAMETER_INTEGER_ARRAY | PARAMETER_DOUBLE_ARRAY | PARAMETER_STRING_ARRAY.

#[global] Instance ParameterType_eq_dec : EqDecision ParameterType.
Proof. solve_decision. Defined.

(** [rclcpp::ParameterValue] *)
Inductive ParameterValue :=
| NotSet
| BoolValue (b : bool)
| IntegerValue (i : Z)
| DoubleValue (d : double)
| StringValue (s : string)
| ByteArrayValue (l : list Z)
| BoolArrayValue (l : list bool)
| IntegerArrayValue (l : list Z)
| DoubleArrayValue (l : list double)
| StringArrayValue (l : list string).

(** [rclcpp::Parameter] *)
Record rclcpp_Parameter := { get_name : string; get_parameter_value : ParameterValue }.

Definition get_type (p : rclcpp_Parameter) : ParameterType :=
  match get_parameter_value p with
  | NotSet => PARAMETER_NOT_SET
  | BoolValue _ => PARAMETER_BOOL
  | IntegerValue _ => PARAMETER_INTEGER
  | DoubleValue _ => PARAMETER_DOUBLE
  | StringValue _ => PARAMETER_STRING
  | ByteArrayValue _ => PARAMETER_BYTE_ARRAY
  | BoolArrayValue _ => PARAMETER_BOOL_ARRAY
  | IntegerArrayValue _ => PARAMETER_INTEGER_ARRAY
  | DoubleArrayValue _ => PARAMETER_DOUBLE_ARRAY
  | StringArrayValue _ => PARAMETER_STRING_ARRAY
  end.

(** [parameter.get_value<T>()]: [None] stands for the
    [ParameterTypeException] thrown when the parameter holds another type. *)
Definition get_value_bool (p : rclcpp_Parameter) : option bool :=
  match get_parameter_value p with BoolValue b => Some b | _ => None end.
Definition get_value_integer (p : rclcpp_Parameter) : option Z :=
  match get_parameter_value p with IntegerValue i => Some i | _ => None end.
Definition get_value_double (p : rclcpp_Parameter) : option double :=
  match get_parameter_value p with DoubleValue d => Some d | _ => None end.

(** [rcl_interfaces::msg::SetParametersResult] *)
Record SetParametersResult := { successful : bool; reason : string }.

Definition intparams : gset string :=
  {[ "axis_linear.x"; "axis_linear.y"; "axis_linear.z";
     "axis_angular.yaw"; "axis_angular.pitch"; "axis_angular.roll";
     "axis_angular_adjustment.yaw"; "axis_angular_adjustment.pitch";
     "axis_angular_adjustment.roll";
     "enable_button"; "enable_turbo_button"; "enable_autorun_button" ]}.

Definition doubleparams : gset string :=
  {[ "scale_linear.x"; "scale_linear.y"; "scale_linear.z";
     "scale_linear_turbo.x"; "scale_linear_turbo.y"; "scale_linear_turbo.z";
     "scale_linear_autorun.x"; "scale_linear_autorun.y"; "scale_linear_autorun.z";
     "scale_angular.yaw"; "scale_angular.pitch"; "scale_angular.roll";
     "scale_angular_turbo.yaw"; "scale_angular_turbo.pitch";
     "scale_angular_turbo.roll";
     "scale_angular_autorun.yaw"; "scale_angular_autorun.pitch";
     "scale_angular_autorun.roll" ]}.

Definition boolparams : gset string := {[ "require_enable_button" ]}.

(** The body of the first loop: [Some result] when it returns early. *)
Definition check (parameter : rclcpp_Parameter) : option SetParametersResult :=
  if bool_decide (get_name parameter ∈ intparams) then
    if bool_decide (get_type parameter ≠ PARAMETER_INTEGER)
    then Some {| successful := false;
                 reason := "Only integer values can be set for '"
                           +:+ get_name parameter +:+ "'." |}
    else None
  else if bool_decide (get_name parameter ∈ doubleparams) then
    if bool_decide (get_type parameter ≠ PARAMETER_DOUBLE)
    then Some {| successful := false;
                 reason := "Only double values can be set for '"
                           +:+ get_name parameter +:+ "'." |}
    else None
  else if bool_decide (get_name parameter ∈ boolparams) then
    if bool_decide (get_type parameter ≠ PARAMETER_BOOL)
    then Some {| successful := false;
                 reason := "Only boolean values can be set for '"
                           +:+ get_name parameter +:+ "'." |}
    else None
  else None.

(** "Loop to check if changed parameters are of expected data type" *)
Fixpoint check_loop (parameters : list rclcpp_Parameter) : option SetParametersResult :=
  match parameters with
  | [] => None
  | parameter :: rest =>
    match check parameter with
    | Some result => Some result
    | None => check_loop rest
    end
  end.

(** [map[k1][k2] = v] *)
Definition assign2 (m : gmap string (gmap string double)) (k1 k2 : string) (v : double)
  : gmap string (gmap string double) :=
  let outer := subscript ∅ m k1 in
  <[k1 := <[k2 := v]> outer.2]> outer.1.

Definition assign_integer (p : rclcpp_Parameter) (f : Z → Impl → Impl) (st : Impl)
  : option Impl := i ← get_value_integer p; Some (f i st).

Definition assign_double (p : rclcpp_Parameter) (f : double → Impl → Impl) (st : Impl)
  : option Impl := d ← get_value_double p; Some (f d st).

Definition linear_axis (k : string) (v : Z) (st : Impl) : Impl :=
  set_axis_linear_map (<[k := v]> (axis_linear_map st)) st.
Definition angular_axis (k : string) (v : Z) (st : Impl) : Impl :=
  set_axis_angular_map (<[k := v]> (axis_angular_map st)) st.
Definition angular_adjustment_axis (k : string) (v : Z) (st : Impl) : Impl :=
  set_axis_angular_adjustment_map (<[k := v]> (axis_angular_adjustment_map st)) st.
Definition linear_scale (k1 k2 : string) (v : double) (st : Impl) : Impl :=
  set_scale_linear_map (assign2 (scale_linear_map st) k1 k2 v) st.
Definition angular_scale (k1 k2 : string) (v : double) (st : Impl) : Impl :=
  set_scale_angular_map (assign2 (scale_angular_map st) k1 k2 v) st.

(** The body of the second loop. *)
Definition assign (parameter : rclcpp_Parameter) (st : Impl) : option Impl :=
  let name := get_name parameter in
  st ← (if (name =? "require_enable_button")%string
        then b ← get_value_bool parameter; Some (set_require_enable_button b st)
        else Some st);
  if (name =? "enable_button")%string then
    assign_integer parameter set_enable_button st
  else if (name =? "enable_turbo_button")%string then
    assign_integer parameter set_enable_turbo_button st
  else if (name =? "enable_autorun_button")%string then
    assign_integer parameter set_enable_autorun_button st
  else if (name =? "axis_linear.x")%string then
    assign_integer parameter (linear_axis "x") st
  else if (name =? "axis_linear.y")%string then
    assign_integer parameter (linear_axis "y") st
  else if (name =? "axis_linear.z")%string then
    assign_integer parameter (linear_axis "z") st
  else if (name =? "axis_angular_adjustment.yaw")%string then
    assign_integer parameter (angular_adjustment_axis "yaw") st
  else if (name =? "axis_angular_adjustment.pitch")%string then
    assign_integer parameter (angular_adjustment_axis "pitch") st
  else if (name =? "axis_angular_adjustment.roll")%string then
    assign_integer parameter (angular_adjustment_axis "roll") st
  else if (name =? "axis_angular.yaw")%string then
    assign_integer parameter (angular_axis "yaw") st
  else if (name =? "axis_angular.pitch")%string then
    assign_integer parameter (angular_axis "pitch") st
  else if (name =? "axis_angular.roll")%string then
    assign_integer parameter (angular_axis "roll") st
  else if (name =? "scale_linear_autorun.x")%string then
    assign_double parameter (linear_scale "autorun" "x") st
  else if (name =? "scale_linear_autorun.y")%string then
    assign_double parameter (linear_scale "autorun" "y") st
  else if (name =? "scale_linear_autorun.z")%string then
    assign_double parameter (linear_scale "autorun" "z") st
  else if (name =? "scale_linear_turbo.x")%string then
    assign_double parameter (linear_scale "turbo" "x") st
  else if (name =? "scale_linear_turbo.y")%string then
    assign_double parameter (linear_scale "turbo" "y") st
  else if (name =? "scale_linear_turbo.z")%string then
    assign_double parameter (linear_scale "turbo" "z") st
  else if (name =? "scale_linear.x")%string then
    assign_double parameter (linear_scale "normal" "x") st
  else if (name =? "scale_linear.y")%string then
    assign_double parameter (linear_scale "normal" "y") st
  else if (name =? "scale_linear.z")%string then
    assign_double parameter (linear_scale "normal" "z") st
  else if (name =? "scale_angular_autorun.yaw")%string then
    assign_double parameter (angular_scale "autorun" "yaw") st
  else if (name =? "scale_angular_autorun.pitch")%string then
    assign_double parameter (angular_scale "autorun" "pitch") st
  else if (name =? "scale_angular_autorun.roll")%string then
    assign_double parameter (angular_scale "autorun" "roll") st
  else if (name =? "scale_angular_turbo.yaw")%string then
    assign_double parameter (angular_scale "turbo" "yaw") st
  else if (name =? "scale_angular_turbo.pitch")%string then
    assign_double parameter (angular_scale "turbo" "pitch") st
  else if (name =? "scale_angular_turbo.roll")%string then
    assign_double parameter (angular_scale "turbo" "roll") st
  else if (name =? "scale_angular.yaw")%string then
    assign_double parameter (angular_scale "normal" "yaw") st
  else if (name =? "scale_angular.pitch")%string then
    assign_double parameter (angular_scale "normal" "pitch") st
  else if (name =? "scale_angular.roll")%string then
    assign_double parameter (angular_scale "normal" "roll") st
  else Some st.

(** "Loop to assign changed parameters to the member variables": the members
    reached, and whether the loop ran to its end ([false]: a [get_value]
    threw, leaving the assignments made so far). *)
Fixpoint assign_loop (parameters : list rclcpp_Parameter) (st : Impl) : Impl * bool :=
  match parameters with
  | [] => (st, true)
  | parameter :: rest =>
    match assign parameter st with
    | Some st' => assign_loop rest st'
    | None => (st, false)
    end
  end.

(** [param_callback]: the members afterwards and the returned result
    ([None] when an exception left the callback). *)
Definition param_callback (parameters : list rclcpp_Parameter) (st : Impl)
  : Impl * option SetParametersResult :=
  match check_loop parameters with
  | Some result => (st, Some result)
  | None =>
    let '(st', completed) := assign_loop parameters st in
    (st', if completed then Some {| successful := true; reason := "" |} else None)
  end.

(** ** Vocabulary of the properties *)

(** [wp m st Q]: running [m] on members [st] gives a value, members and
    events that satisfy [Q]. *)
Definition wp {A} (m : M A) (st : Impl) (Q : A → Impl → list Event → Prop) : Prop :=
  Q (value_of (m st)) (state_of (m st)) (trace_of (m st)).

(** What [m[k1][k2]] reads, whether or not the entries exist. *)
Definition looks2 (m : gmap string (gmap string double)) (k1 k2 : string) : double :=
  default Double.zero (default ∅ (m !! k1) !! k2).

(** Members [s] hold the configuration, the toggle state and the scales
    of [st]. *)
Definition same_settings (st s : Impl) : Prop :=
  require_enable_button s = require_enable_button st
  ∧ autorun_flag s = autorun_flag st
  ∧ enable_button s = enable_button st
  ∧ enable_turbo_button s = enable_turbo_button st
  ∧ enable_autorun_button s = enable_autorun_button st
  ∧ autorun_buffer s = autorun_buffer st
  ∧ axis_linear_map s = axis_linear_map st
  ∧ axis_angular_map s = axis_angular_map st
  ∧ axis_angular_adjustment_map s = axis_angular_adjustment_map st
  ∧ (∀ k1 k2, looks2 (scale_linear_map s) k1 k2 = looks2 (scale_linear_map st) k1 k2)
  ∧ (∀ k1 k2, looks2 (scale_angular_map s) k1 k2 = looks2 (scale_angular_map st) k1 k2).

(** The outcome of [sendCmdVelMsg joy_msg which_map] on members [st]. *)
Definition sent_command (wild_axis : Z → float) (joy_msg : Joy) (which_map : string)
    (st : Impl) : unit → Impl → list Event → Prop := λ _ s t,
  same_settings st s
  ∧ sent_disable_msg s = false
  ∧ speed_x_max s =
      (if autorun_flag st
       then clamp (x_limit st)
              (accumulated (speed_x_max st)
                 (linear_input wild_axis joy_msg st which_map "x"))
       else speed_x_max st)
  ∧ ∃ cmd_vel_msg,
      published t = [cmd_vel_msg]
      ∧ Msg.x (Msg.linear cmd_vel_msg) =
          Double.of_float
            (if autorun_flag st then speed_x_max s
             else Float.of_double (linear_input wild_axis joy_msg st which_map "x"))
      ∧ Msg.z (Msg.angular cmd_vel_msg) =
          Double.of_float
            (if autorun_flag st
             then clamp (yaw_limit st)
                    (Float.add
                       (Float.of_double (angular_input wild_axis joy_msg st which_map "yaw"))
                       (Float.of_double
                          (adjustment_input wild_axis joy_msg st which_map "yaw")))
             else Float.of_double (angular_input wild_axis joy_msg st which_map "yaw")).

(** ** The specification's reading of the mode selection *)

(** An index that designates an element of the button sequence. *)
Definition in_range (i : Z) (bs : list Z) : bool :=
  (0 <=? i) && (i <? Z.of_nat (length bs)).

(** The button at an index is held down; a button that does not exist is
    not. *)
Definition is_pressed (i : Z) (bs : list Z) : bool :=
  in_range i bs && negb (default 0 (bs !! Z.to_nat i) =? 0).

(** Autorun, then turbo, then the enable gate, then disabled. *)
Definition spec_mode (autorun_active : bool) (cfg : Impl) (joy_msg : Joy) : Mode :=
  if autorun_active then Autorun
  else if (0 <=? enable_turbo_button cfg)
          && in_range (enable_turbo_button cfg) (buttons joy_msg)
          && is_pressed (enable_turbo_button cfg) (buttons joy_msg) then Turbo
  else if negb (require_enable_button cfg)
          || in_range (enable_button cfg) (buttons joy_msg)
             && is_pressed (enable_button cfg) (buttons joy_msg) then Normal
  else Disabled.

(** ** Runs with a constant forward input *)




(** ** The specification's table of parameter kinds *)

(** The configuration surface: which value kind each option takes. *)
Definition expected_kinds : list (string * ParameterType) :=
  [ ("require_enable_button", PARAMETER_BOOL);
    ("enable_button", PARAMETER_INTEGER);
    ("enable_turbo_button", PARAMETER_INTEGER);
    ("enable_autorun_button", PARAMETER_INTEGER);
    ("axis_linear.x", PARAMETER_INTEGER);
    ("axis_linear.y", PARAMETER_INTEGER);
    ("axis_linear.z", PARAMETER_INTEGER);
    ("axis_angular.yaw", PARAMETER_INTEGER);
    ("axis_angular.pitch", PARAMETER_INTEGER);
    ("axis_angular.roll", PARAMETER_INTEGER);
    ("axis_angular_adjustment.yaw", PARAMETER_INTEGER);
    ("axis_angular_adjustment.pitch", PARAMETER_INTEGER);
    ("axis_angular_adjustment.roll", PARAMETER_INTEGER);
    ("scale_linear.x", PARAMETER_DOUBLE);
    ("scale_linear.y", PARAMETER_DOUBLE);
    ("scale_linear.z", PARAMETER_DOUBLE);
    ("scale_linear_turbo.x", PARAMETER_DOUBLE);
    ("scale_linear_turbo.y", PARAMETER_DOUBLE);
    ("scale_linear_turbo.z", PARAMETER_DOUBLE);
    ("scale_linear_autorun.x", PARAMETER_DOUBLE);
    ("scale_linear_autorun.y", PARAMETER_DOUBLE);
    ("scale_linear_autorun.z", PARAMETER_DOUBLE);
    ("scale_angular.yaw", PARAMETER_DOUBLE);
    ("scale_angular.pitch", PARAMETER_DOUBLE);
    ("scale_angular.roll", PARAMETER_DOUBLE);
    ("scale_angular_turbo.yaw", PARAMETER_DOUBLE);
    ("scale_angular_turbo.pitch", PARAMETER_DOUBLE);
    ("scale_angular_turbo.roll", PARAMETER_DOUBLE);
    ("scale_angular_autorun.yaw", PARAMETER_DOUBLE);
    ("scale_angular_autorun.pitch", PARAMETER_DOUBLE);
    ("scale_angular_autorun.roll", PARAMETER_DOUBLE) ].

Fixpoint expected_kind_in (table : list (string * ParameterType)) (name : string)
  : option ParameterType :=
  match table with
  | [] => None
  | (n, k) :: rest => if (name =? n)%string then Some k else expected_kind_in rest name
  end.

Definition expected_kind : string → option ParameterType :=
  expected_kind_in expected_kinds.

(** A parameter of a recognized name whose value has another kind. *)
Definition mismatched (p : rclcpp_Parameter) : bool :=
  match expected_kind (get_name p) with
  | Some k => negb (bool_decide (get_type p = k))
  | None => false
  end.

(** The text [name] occurs in [text]. *)
Definition mentions (text name : string) : Prop :=
  ∃ before after, text = before +:+ name +:+ after.

(** ** Inputs of the examples *)

(** Memory around the sample that reads as zero. *)
Definition zeros_button : Z → Z := λ _, 0.
Definition zeros_axis : Z → float := λ _, Float.zero.

(** Memory before a one-button vector on the heap of glibc: the eight bytes
    before the block hold its size and flags, 33 for the smallest block, so
    the element at -2 reads 33 and the element at -1 reads 0. *)
Definition chunk_header : Z → Z := λ i, if i =? -2 then 33 else 0.

(** The members after a batch of parameter updates. *)
Definition with_parameters (parameters : list rclcpp_Parameter) (st : Impl) : Impl :=
  (param_callback parameters st).1.

(** A six-button, six-axis pad: enable button 5 held or released, the forward
    axis 5 pushed fully. *)
Definition enable_held : Joy :=
  {| axes := [Float.zero; Float.zero; Float.zero; Float.zero; Float.zero; Float.one];
     buttons := [0; 0; 0; 0; 0; 1] |}.
Definition enable_released : Joy :=
  {| axes := [Float.zero; Float.zero; Float.zero; Float.zero; Float.zero; Float.one];
     buttons := [0; 0; 0; 0; 0; 0] |}.

(** A pad with one button, up or down, and the forward axis at [a]. *)
Definition one_button (b : Z) (a : float) : Joy :=
  {| axes := [Float.zero; Float.zero; Float.zero; Float.zero; Float.zero; a];
     buttons := [b] |}.

(** Button 0 toggles autorun. *)
Definition autorun_on_button_0 : Impl :=
  with_parameters
    [ {| get_name := "enable_autorun_button"; get_parameter_value := IntegerValue 0 |} ]
    initial.

(** Button 2 toggles autorun; a one-button pad does not have it. *)
Definition autorun_on_button_2 (prev : Z) : Impl :=
  set_autorun_buffer prev
    (with_parameters
       [ {| get_name := "enable_autorun_button"; get_parameter_value := IntegerValue 2 |} ]
       initial).

(** The forward axis inverted in autorun mode. *)
Definition inverted_autorun : Impl :=
  with_parameters
    [ {| get_name := "enable_autorun_button"; get_parameter_value := IntegerValue 0 |};
      {| get_name := "scale_linear_autorun.x"; get_parameter_value := DoubleValue (Double.of_Z (-1)) |} ]
    initial.

(** The autorun forward scale, and with it the limit of the ramp, at 0.1. *)
Definition tenth_limit : Impl :=
  with_parameters
    [ {| get_name := "enable_autorun_button"; get_parameter_value := IntegerValue 0 |};
      {| get_name := "scale_linear_autorun.x";
         get_parameter_value := DoubleValue (Double.ratio 1 10) |} ]
    initial.

(** The autorun yaw scale, and with it the yaw limit, at 0.7. *)
Definition yaw_limited : Impl :=
  with_parameters
    [ {| get_name := "enable_autorun_button"; get_parameter_value := IntegerValue 0 |};
      {| get_name := "scale_angular_autorun.yaw";
         get_parameter_value := DoubleValue (Double.ratio 7 10) |} ]
    initial.

(** The enable button at a negative index while still required; button 0
    toggles autorun. *)
Definition enable_unused : Impl :=
  with_parameters
    [ {| get_name := "enable_autorun_button"; get_parameter_value := IntegerValue 0 |};
      {| get_name := "enable_button"; get_parameter_value := IntegerValue (-2) |} ]
    initial.

(** Both yaw sources pushed fully, toggle button held. *)
Definition yaw_both : Joy :=
  {| axes := [Float.zero; Float.zero; Float.one; Float.one; Float.zero; Float.zero];
     buttons := [1] |}.

(** The kind the first loop of [param_callback] demands of a name. *)
Definition checked_kind (name : string) : option ParameterType :=
  if bool_decide (name ∈ intparams) then Some PARAMETER_INTEGER
  else if bool_decide (name ∈ doubleparams) then Some PARAMETER_DOUBLE
  else if bool_decide (name ∈ boolparams) then Some PARAMETER_BOOL
  else None.

(** ** Guarded accesses *)

(** Every configured axis index is -1 (unmapped) or not negative. *)
Definition axes_mapped (st : Impl) : Prop :=
  ∀ f i,
    axis_linear_map st !! f = Some i
    ∨ axis_angular_map st !! f = Some i
    ∨ axis_angular_adjustment_map st !! f = Some i →
    -1 ≤ i.

(** All accesses of a trace stay inside their vectors. *)
Definition all_within (t : list Event) : Prop := Forall (λ e, within e = true) t.

(** ** Where each option lives *)

(** The member that holds the option of a given name, read back as a
    parameter value: the buttons and the enable requirement are scalars, the
    axis options are entries of the three axis maps, the scale options are
    entries of the two scale tables under their mode. *)
Definition member (st : Impl) (name : string) : option ParameterValue :=
  let axis (m : gmap string Z) (k : string) := IntegerValue <$> m !! k in
  let scale (m : gmap string (gmap string double)) (mode k : string) :=
    DoubleValue <$> (m !! mode ≫= λ table, table !! k) in
  if (name =? "require_enable_button")%string
  then Some (BoolValue (require_enable_button st))
  else if (name =? "enable_button")%string
  then Some (IntegerValue (enable_button st))
  else if (name =? "enable_turbo_button")%string
  then Some (IntegerValue (enable_turbo_button st))
  else if (name =? "enable_autorun_button")%string
  then Some (IntegerValue (enable_autorun_button st))
  else if (name =? "axis_linear.x")%string then axis (axis_linear_map st) "x"
  else if (name =? "axis_linear.y")%string then axis (axis_linear_map st) "y"
  else if (name =? "axis_linear.z")%string then axis (axis_linear_map st) "z"
  else if (name =? "axis_angular.yaw")%string then axis (axis_angular_map st) "yaw"
  else if (name =? "axis_angular.pitch")%string then axis (axis_angular_map st) "pitch"
  else if (name =? "axis_angular.roll")%string then axis (axis_angular_map st) "roll"
  else if (name =? "axis_angular_adjustment.yaw")%string
  then axis (axis_angular_adjustment_map st) "yaw"
  else if (name =? "axis_angular_adjustment.pitch")%string
  then axis (axis_angular_adjustment_map st) "pitch"
  else if (name =? "axis_angular_adjustment.roll")%string
  then axis (axis_angular_adjustment_map st) "roll"
  else if (name =? "scale_linear.x")%string
  then scale (scale_linear_map st) "normal" "x"
  else if (name =? "scale_linear.y")%string
  then scale (scale_linear_map st) "normal" "y"
  else if (name =? "scale_linear.z")%string
  then scale (scale_linear_map st) "normal" "z"
  else if (name =? "scale_linear_turbo.x")%string
  then scale (scale_linear_map st) "turbo" "x"
  else if (name =? "scale_linear_turbo.y")%string
  then scale (scale_linear_map st) "turbo" "y"
  else if (name =? "scale_linear_turbo.z")%string
  then scale (scale_linear_map st) "turbo" "z"
  else if (name =? "scale_linear_autorun.x")%string
  then scale (scale_linear_map st) "autorun" "x"
  else if (name =? "scale_linear_autorun.y")%string
  then scale (scale_linear_map st) "autorun" "y"
  else if (name =? "scale_linear_autorun.z")%string
  then scale (scale_linear_map st) "autorun" "z"
  else if (name =? "scale_angular.yaw")%string
  then scale (scale_angular_map st) "normal" "yaw"
  else if (name =? "scale_angular.pitch")%string
  then scale (scale_angular_map st) "normal" "pitch"
  else if (name =? "scale_angular.roll")%string
  then scale (scale_angular_map st) "normal" "roll"
  else if (name =? "scale_angular_turbo.yaw")%string
  then scale (scale_angular_map st) "turbo" "yaw"
  else if (name =? "scale_angular_turbo.pitch")%string
  then scale (scale_angular_map st) "turbo" "pitch"
  else if (name =? "scale_angular_turbo.roll")%string
  then scale (scale_angular_map st) "turbo" "roll"
  else if (name =? "scale_angular_autorun.yaw")%string
  then scale (scale_angular_map st) "autorun" "yaw"
  else if (name =? "scale_angular_autorun.pitch")%string
  then scale (scale_angular_map st) "autorun" "pitch"
  else if (name =? "scale_angular_autorun.roll")%string
  then scale (scale_angular_map st) "autorun" "roll"
  else None.

(** The forward axis mapped two places before the vector. *)
Definition axis_before_vector : Impl :=
  with_parameters
    [ {| get_name := "axis_linear.x"; get_parameter_value := IntegerValue (-2) |} ]
    initial.

(** ** Runs of the toggle button *)

(** The values the toggle button at index [b] takes over a run. *)
Definition toggle_values (b : Z) (samples : list Joy) : list Z :=
  (λ joy_msg, nth (Z.to_nat b) (buttons joy_msg) 0) <$> samples.

(** How often a value exceeds the one before it, starting from [prev]. *)
Fixpoint rising_edges (prev : Z) (values : list Z) : nat :=
  match values with
  | [] => 0
  | v :: rest => ((if (prev <? v)%Z then 1 else 0) + rising_edges v rest)%nat
  end.

(** ** Batches of parameters *)

(** The value a batch gives to a name: that of its last parameter of that
    name. *)
Fixpoint last_value (parameters : list rclcpp_Parameter) (name : string)
  : option ParameterValue :=
  match parameters with
  | [] => None
  | p :: rest =>
    match last_value rest name with
    | Some v => Some v
    | None => if (get_name p =? name)%string then Some (get_parameter_value p) else None
    end
  end.

(** * Properties *)

(** ** Comparisons of floating-point numbers

    [SFcompare] is [None] exactly when an argument is a NaN, so every
    comparison with a NaN is false. *)

Lemma SFcompare_antisym x y : SFcompare y x = CompOpp <$> SFcompare x y.
Proof.
  destruct x as [sx|sx| |sx mx ex], y as [sy|sy| |sy my ey]; cbn;
    try destruct sx; try destruct sy; try reflexivity;
    rewrite (Z.compare_antisym ey ex);
    destruct (ey ?= ex); cbn; try reflexivity;
    rewrite (Pos.compare_cont_antisym mx my Eq); cbn;
    by destruct (Pos.compare_cont Eq mx my).
Qed.

Lemma SFcompare_refl x : x ≠ S754_nan → SFcompare x x = Some Eq.
Proof.
  destruct x as [sx|sx| |sx mx ex]; cbn; intros Hx; try done.
  - by destruct sx.
  - rewrite Z.compare_refl, Pos.compare_cont_refl. by destruct sx.
Qed.

Lemma SFleb_refl x : x ≠ S754_nan → SFleb x x = true.
Proof. intros Hx. unfold SFleb. by rewrite SFcompare_refl. Qed.

Lemma SFltb_not_nan_l x y : SFltb x y = true → x ≠ S754_nan.
Proof. by intros H ->. Qed.

Lemma SFltb_not_nan_r x y : SFltb x y = true → y ≠ S754_nan.
Proof. intros H ->. by destruct x. Qed.

Lemma SFleb_not_nan_r x y : SFleb x y = true → y ≠ S754_nan.
Proof. intros H ->. by destruct x. Qed.

(** Of two numbers, the first is below the second or the second is at most
    the first. *)
Lemma SFltb_false_SFleb x y :
  x ≠ S754_nan → y ≠ S754_nan → SFltb y x = false → SFleb x y = true.
Proof.
  intros Hx Hy. unfold SFltb, SFleb. rewrite (SFcompare_antisym x y).
  destruct (SFcompare x y) as [[]|] eqn:E; cbn; try done.
  destruct x, y; try done; discriminate.
Qed.

Lemma SFopp_not_nan x : x ≠ S754_nan → SFopp x ≠ S754_nan.
Proof. by destruct x. Qed.

(** A limit that is not negative: [-limit <= 0 <= limit], and the second
    step of the clamp leaves the limit alone. *)
Lemma SFopp_nonneg limit :
  SFleb Float.zero limit = true →
  SFleb (SFopp limit) limit = true
  ∧ SFleb (SFopp limit) Float.zero = true
  ∧ SFltb limit (SFopp limit) = false.
Proof. destruct limit as [s|s| |s m e]; cbn; try destruct s; try done.
  all: rewrite ?Z.compare_refl, ?Pos.compare_cont_refl; done. Qed.

(** ** A program logic for [M] *)

Lemma wp_bind {A B} (m : M A) (k : A → M B) st Q :
  wp m st (λ a s t, wp (k a) s (λ b s' t', Q b s' (t ++ t'))) → wp (m ≫= k) st Q.
Proof. exact (λ H, H). Qed.

Lemma wp_ret {A} (a : A) st (Q : A → Impl → list Event → Prop) :
  Q a st [] → wp (mret a) st Q.
Proof. exact (λ H, H). Qed.

Lemma wp_gets {A} (f : Impl → A) st (Q : A → Impl → list Event → Prop) :
  Q (f st) st [] → wp (gets f) st Q.
Proof. exact (λ H, H). Qed.

Lemma wp_modify f st (Q : unit → Impl → list Event → Prop) :
  Q tt (f st) [] → wp (modify f) st Q.
Proof. exact (λ H, H). Qed.

Lemma wp_emit e st (Q : unit → Impl → list Event → Prop) :
  Q tt st [e] → wp (emit e) st Q.
Proof. exact (λ H, H). Qed.

Lemma wp_call {A} (r : R A) st (Q : A → Impl → list Event → Prop) :
  Q r.1 st r.2 → wp (call r) st Q.
Proof. exact (λ H, H). Qed.

Lemma wp_scale_linear_at k st (Q : gmap string double → Impl → list Event → Prop) :
  Q (subscript ∅ (scale_linear_map st) k).2
    (set_scale_linear_map (subscript ∅ (scale_linear_map st) k).1 st) [] →
  wp (scale_linear_at k) st Q.
Proof. exact (λ H, H). Qed.

Lemma wp_scale_angular_at k st (Q : gmap string double → Impl → list Event → Prop) :
  Q (subscript ∅ (scale_angular_map st) k).2
    (set_scale_angular_map (subscript ∅ (scale_angular_map st) k).1 st) [] →
  wp (scale_angular_at k) st Q.
Proof. exact (λ H, H). Qed.

Lemma wp_scale_linear_at2 k1 k2 st (Q : double → Impl → list Event → Prop) :
  Q (subscript2 (scale_linear_map st) k1 k2).2
    (set_scale_linear_map (subscript2 (scale_linear_map st) k1 k2).1 st) [] →
  wp (scale_linear_at2 k1 k2) st Q.
Proof. exact (λ H, H). Qed.

Lemma wp_scale_angular_at2 k1 k2 st (Q : double → Impl → list Event → Prop) :
  Q (subscript2 (scale_angular_map st) k1 k2).2
    (set_scale_angular_map (subscript2 (scale_angular_map st) k1 k2).1 st) [] →
  wp (scale_angular_at2 k1 k2) st Q.
Proof. exact (λ H, H). Qed.

Lemma wp_mono {A} (m : M A) st (Q Q' : A → Impl → list Event → Prop) :
  wp m st Q → (∀ a s t, Q a s t → Q' a s t) → wp m st Q'.
Proof. unfold wp. auto. Qed.

(** Reading a member through the setters. *)
Ltac fields :=
  cbn [require_enable_button autorun_flag enable_button enable_turbo_button
       enable_autorun_button autorun_buffer axis_linear_map scale_linear_map
       axis_angular_map axis_angular_adjustment_map scale_angular_map speed_x_max
       sent_disable_msg
       set_require_enable_button set_autorun_flag set_enable_button
       set_enable_turbo_button set_enable_autorun_button set_autorun_buffer
       set_axis_linear_map set_scale_linear_map set_axis_angular_map
       set_axis_angular_adjustment_map set_scale_angular_map set_speed_x_max
       set_sent_disable_msg] in *.

(** One statement of the code under execution. *)
Ltac wp_step :=
  lazymatch goal with
  | |- wp (mbind _ _) _ _ => apply wp_bind
  | |- wp (mret _) _ _ => apply wp_ret
  | |- wp (gets _) _ _ => apply wp_gets
  | |- wp (modify _) _ _ => apply wp_modify
  | |- wp (emit _) _ _ => apply wp_emit
  | |- wp (call _) _ _ => apply wp_call
  | |- wp (scale_linear_at _) _ _ => apply wp_scale_linear_at
  | |- wp (scale_angular_at _) _ _ => apply wp_scale_angular_at
  | |- wp (scale_linear_at2 _ _) _ _ => apply wp_scale_linear_at2
  | |- wp (scale_angular_at2 _ _) _ _ => apply wp_scale_angular_at2
  | |- wp (if negb ?c then _ else _) _ _ => destruct c eqn:?; cbn [negb]
  | |- wp (if ?c then _ else _) _ _ => destruct c eqn:?
  end; cbv beta iota; fields.

(** Rewriting with the outcomes of the tests met during execution. *)
Ltac use_tests :=
  repeat match goal with
         | H : ?c = true |- context [?c] => rewrite H
         | H : ?c = false |- context [?c] => rewrite H
         end.

(** ** [operator[]] leaves what a map reads unchanged *)

Lemma subscript_snd {V} (d : V) (m : gmap string V) k :
  (subscript d m k).2 = default d (m !! k).
Proof. unfold subscript. by destruct (m !! k). Qed.

Lemma subscript_fst_lookup {V} (d : V) (m : gmap string V) k k' :
  default d ((subscript d m k).1 !! k') = default d (m !! k').
Proof.
  unfold subscript. destruct (m !! k) eqn:E; cbn; [done|].
  destruct (decide (k = k')) as [->|Hne].
  - by rewrite lookup_insert_eq, E.
  - by rewrite lookup_insert_ne.
Qed.

Lemma subscript_idem {V} (d : V) (m : gmap string V) k :
  (subscript d (subscript d m k).1 k).2 = (subscript d m k).2.
Proof. by rewrite !subscript_snd, subscript_fst_lookup. Qed.

Lemma subscript2_snd m k1 k2 : (subscript2 m k1 k2).2 = looks2 m k1 k2.
Proof. unfold subscript2, looks2. cbn. by rewrite !subscript_snd. Qed.

Lemma looks2_subscript m k k1 k2 :
  looks2 (subscript ∅ m k).1 k1 k2 = looks2 m k1 k2.
Proof. unfold looks2. by rewrite subscript_fst_lookup. Qed.

Lemma looks2_subscript2 m a b k1 k2 :
  looks2 (subscript2 m a b).1 k1 k2 = looks2 m k1 k2.
Proof.
  unfold looks2, subscript2. cbn.
  destruct (decide (a = k1)) as [->|Hne].
  - rewrite lookup_insert_eq. cbn.
    rewrite (subscript_snd ∅ m k1).
    destruct (decide (b = k2)) as [->|Hne'].
    + unfold subscript at 1.
      destruct (default ∅ (m !! k1) !! k2) eqn:E; cbn; [by rewrite E|].
      by rewrite lookup_insert_eq.
    + unfold subscript at 1.
      destruct (default ∅ (m !! k1) !! b) eqn:E; cbn; [done|].
      by rewrite lookup_insert_ne.
  - rewrite lookup_insert_ne by done.
    apply (f_equal (λ o : gmap string double, default Double.zero (o !! k2))).
    apply (subscript_fst_lookup ∅ m a k1).
Qed.

Section Properties.

Variable wild_button : Z → Z.
Variable wild_axis : Z → float.

#[local] Abbreviation getVal := (getVal wild_axis).
#[local] Abbreviation sendCmdVelMsg := (sendCmdVelMsg wild_axis).
#[local] Abbreviation joyCallback := (joyCallback wild_button wild_axis).
#[local] Abbreviation button_at := (button_at wild_button).
#[local] Abbreviation toggled := (toggled wild_button).
#[local] Abbreviation prepared := (prepared wild_button).
#[local] Abbreviation pressed := (pressed wild_button).
#[local] Abbreviation mode_taken := (mode_taken wild_button).
#[local] Abbreviation handler := (handler wild_axis).
#[local] Abbreviation spin := (spin wild_button wild_axis).
#[local] Abbreviation modes := (modes wild_button wild_axis).
#[local] Abbreviation linear_input := (linear_input wild_axis).
#[local] Abbreviation angular_input := (angular_input wild_axis).
#[local] Abbreviation adjustment_input := (adjustment_input wild_axis).

(** ** Published commands of a trace *)

Lemma published_app t1 t2 : published (t1 ++ t2) = published t1 ++ published t2.
Proof. apply omap_app. Qed.

Lemma getVal_published joy am sm f : published (getVal joy am sm f).2 = [].
Proof. unfold getVal. repeat case_match; reflexivity. Qed.

Lemma button_at_published joy i : published (button_at joy i).2 = [].
Proof. reflexivity. Qed.

(** ** [sendCmdVelMsg] *)

(** What one call of [sendCmdVelMsg] does to the members and publishes. *)
Lemma sendCmdVelMsg_spec joy w st :
  wp (sendCmdVelMsg joy w) st (sent_command wild_axis joy w st).
Proof.
  unfold sendCmdVelMsg. repeat wp_step;
    unfold sent_command, same_settings; fields; rewrite ?Heqb;
    (split; [repeat apply conj; try reflexivity; intros k1 k2;
             by repeat (rewrite looks2_subscript || rewrite looks2_subscript2)|]);
    (split; [reflexivity|]).
  - split.
    + unfold x_limit, linear_input, clamp.
      by rewrite !subscript2_snd, looks2_subscript.
    + eexists. split; [|split].
      * rewrite !published_app, !getVal_published. reflexivity.
      * reflexivity.
      * cbn [Msg.z Msg.angular].
        unfold yaw_limit, angular_input, adjustment_input, clamp.
        by rewrite !subscript2_snd, !looks2_subscript, subscript_idem.
  - split; [reflexivity|].
    eexists. split; [|split].
    + rewrite !published_app, !getVal_published. reflexivity.
    + reflexivity.
    + reflexivity.
Qed.


(** ** [joyCallback] *)

Lemma stop_spec st :
  wp stop st (λ _ s t,
    s = set_sent_disable_msg true st
    ∧ published t = if sent_disable_msg st then [] else [Msg.zero]).
Proof.
  destruct st as [req flag eb etb eab buf alm slm aam adj sam spd sent].
  unfold stop. repeat wp_step; subst; done.
Qed.

(** The callback does what the branch chosen on the toggled members does on
    the prepared members. *)
Lemma joyCallback_dispatch joy st :
  state_of (joyCallback joy st)
  = state_of (handler joy (mode_taken joy (toggled joy st)) (prepared joy st))
  ∧ published (trace_of (joyCallback joy st))
    = published (trace_of (handler joy (mode_taken joy (toggled joy st))
                             (prepared joy st))).
Proof.
  destruct st as [req flag eb etb eab buf alm slm aam adj sam spd sent].
  match goal with
  | |- context [joyCallback _ ?st] =>
    change (wp (joyCallback joy) st (λ _ s t,
      s = state_of (handler joy (mode_taken joy (toggled joy st)) (prepared joy st))
      ∧ published t
        = published (trace_of (handler joy (mode_taken joy (toggled joy st))
                                 (prepared joy st)))))
  end.
  unfold joyCallback. repeat wp_step.
  all: unfold wp, prepared, toggled, mode_taken, pressed;
    repeat (progress (fields; use_tests; cbn [andb orb negb handler])).
  all: split; [reflexivity|];
    rewrite ?published_app, ?button_at_published; reflexivity.
Qed.

(** The toggle block and the reset touch three members only. *)
Lemma toggled_members joy st :
  require_enable_button (toggled joy st) = require_enable_button st
  ∧ enable_button (toggled joy st) = enable_button st
  ∧ enable_turbo_button (toggled joy st) = enable_turbo_button st
  ∧ enable_autorun_button (toggled joy st) = enable_autorun_button st
  ∧ axis_linear_map (toggled joy st) = axis_linear_map st
  ∧ scale_linear_map (toggled joy st) = scale_linear_map st
  ∧ axis_angular_map (toggled joy st) = axis_angular_map st
  ∧ axis_angular_adjustment_map (toggled joy st) = axis_angular_adjustment_map st
  ∧ scale_angular_map (toggled joy st) = scale_angular_map st
  ∧ speed_x_max (toggled joy st) = speed_x_max st
  ∧ sent_disable_msg (toggled joy st) = sent_disable_msg st.
Proof. unfold toggled. repeat case_match; fields; by repeat split. Qed.

Lemma prepared_members joy st :
  same_settings (toggled joy st) (prepared joy st)
  ∧ scale_linear_map (prepared joy st) = scale_linear_map st
  ∧ scale_angular_map (prepared joy st) = scale_angular_map st
  ∧ sent_disable_msg (prepared joy st) = sent_disable_msg st
  ∧ speed_x_max (prepared joy st)
    = (if autorun_flag (toggled joy st) then speed_x_max st else Float.zero).
Proof.
  destruct (toggled_members joy st)
    as (_ & _ & _ & _ & _ & Hsl & _ & _ & Hsa & Hspd & Hsent).
  unfold prepared, same_settings.
  destruct (autorun_flag (toggled joy st)) eqn:E; cbn [negb]; fields;
    by repeat split.
Qed.

Lemma same_settings_trans st1 st2 st3 :
  same_settings st1 st2 → same_settings st2 st3 → same_settings st1 st3.
Proof.
  unfold same_settings. intros H1 H2.
  destruct H1 as (?&?&?&?&?&?&?&?&?&Hl1&Ha1).
  destruct H2 as (?&?&?&?&?&?&?&?&?&Hl2&Ha2).
  repeat split; congruence.
Qed.

Lemma x_limit_looks2 st : x_limit st =
    Float.of_double (Double.mul (Double.of_float Float.one)
                       (looks2 (scale_linear_map st) "autorun" "x")).
Proof. unfold x_limit. by rewrite subscript2_snd. Qed.

Lemma yaw_limit_looks2 st :
  yaw_limit st =
    Float.of_double (Double.mul (Double.of_float Float.one)
                       (looks2 (scale_angular_map st) "autorun" "yaw")).
Proof. unfold yaw_limit. by rewrite subscript2_snd. Qed.

Lemma same_settings_x_limit st s : same_settings st s → x_limit s = x_limit st.
Proof.
  intros (_&_&_&_&_&_&_&_&_&Hl&_). by rewrite !x_limit_looks2, Hl.
Qed.

(** What one sample does to the members. *)
Lemma joyCallback_members joy st :
  let s := state_of (joyCallback joy st) in
  same_settings (toggled joy st) s
  ∧ speed_x_max s
    = (if autorun_flag (toggled joy st)
       then clamp (x_limit st)
              (accumulated (speed_x_max st) (linear_input joy st "autorun" "x"))
       else Float.zero)
  ∧ sent_disable_msg s
    = (match mode_taken joy (toggled joy st) with Disabled => true | _ => false end).
Proof.
  cbv zeta. destruct (joyCallback_dispatch joy st) as [-> _].
  destruct (prepared_members joy st) as (Hset & Hsl & Hsa & Hsent & Hspd).
  assert (Hx : x_limit (prepared joy st) = x_limit st)
    by (by rewrite !x_limit_looks2, Hsl).
  assert (Hin : ∀ w f, linear_input joy (prepared joy st) w f = linear_input joy st w f).
  { intros. unfold linear_input. rewrite Hsl.
    destruct Hset as (_&_&_&_&_&_&->&_).
    by destruct (toggled_members joy st) as (_&_&_&_&->&_). }
  assert (Hflag : autorun_flag (prepared joy st) = autorun_flag (toggled joy st))
    by (by destruct Hset as (_&->&_)).
  unfold mode_taken.
  destruct (autorun_flag (toggled joy st)) eqn:Eflag; cbn [handler].
  - pose proof (sendCmdVelMsg_spec joy "autorun" (prepared joy st)) as Hrun.
    destruct Hrun as (Hs & Hsd & Hsp & _).
    rewrite Hflag, Hx, Hin, Hspd in Hsp.
    split; [by eapply same_settings_trans|]. by split.
  - repeat case_match; cbn [handler].
    + pose proof (sendCmdVelMsg_spec joy "turbo" (prepared joy st)) as Hrun.
      destruct Hrun as (Hs & Hsd & Hsp & _).
      rewrite Hflag, Hspd in Hsp.
      split; [by eapply same_settings_trans|]. by split.
    + pose proof (sendCmdVelMsg_spec joy "normal" (prepared joy st)) as Hrun.
      destruct Hrun as (Hs & Hsd & Hsp & _).
      rewrite Hflag, Hspd in Hsp.
      split; [by eapply same_settings_trans|]. by split.
    + pose proof (stop_spec (prepared joy st)) as Hrun.
      destruct Hrun as (-> & _).
      split; [|split; [|reflexivity]].
      * eapply same_settings_trans; [exact Hset|].
        unfold same_settings. fields. by repeat split.
      * fields. by rewrite Hspd.
Qed.

(** What one sample publishes. *)
Lemma joyCallback_published joy st :
  match mode_taken joy (toggled joy st) with
  | Disabled =>
    published (trace_of (joyCallback joy st))
    = if sent_disable_msg st then [] else [Msg.zero]
  | _ => ∃ cmd_vel_msg, published (trace_of (joyCallback joy st)) = [cmd_vel_msg]
  end.
Proof.
  destruct (joyCallback_dispatch joy st) as [_ ->].
  destruct (prepared_members joy st) as (_ & _ & _ & Hsent & _).
  destruct (mode_taken joy (toggled joy st)); cbn [handler].
  - destruct (stop_spec (prepared joy st)) as (_ & ->). by rewrite Hsent.
  - destruct (sendCmdVelMsg_spec joy "normal" (prepared joy st))
      as (_ & _ & _ & tw & -> & _). by exists tw.
  - destruct (sendCmdVelMsg_spec joy "turbo" (prepared joy st))
      as (_ & _ & _ & tw & -> & _). by exists tw.
  - destruct (sendCmdVelMsg_spec joy "autorun" (prepared joy st))
      as (_ & _ & _ & tw & -> & _). by exists tw.
Qed.


(** ** The autorun toggle *)

(** The toggle block on a sample that has the toggle button. *)
Lemma toggled_in_range joy st v :
  0 ≤ enable_autorun_button st →
  buttons joy !! Z.to_nat (enable_autorun_button st) = Some v →
  autorun_flag (toggled joy st)
  = (if 0 <? v - autorun_buffer st then negb (autorun_flag st) else autorun_flag st)
  ∧ autorun_buffer (toggled joy st) = v.
Proof.
  intros Hge Hv. unfold toggled, button_at, size_int. cbn.
  pose proof (lookup_lt_Some _ _ _ Hv) as Hlt.
  assert (Hin : (0 <=? enable_autorun_button st)
                && (enable_autorun_button st <? Z.of_nat (length (buttons joy))) = true).
  { apply andb_true_intro. split; [apply Z.leb_le|apply Z.ltb_lt]; lia. }
  rewrite Hin. rewrite nth_lookup, Hv. cbn [default]. unfold id.
  destruct (0 <? v - autorun_buffer st); fields; [|done].
  by destruct (autorun_flag st).
Qed.

(** [autorun_flag] and [autorun_buffer] after a sample are those the toggle
    block leaves. *)
Lemma joyCallback_toggle joy st :
  autorun_flag (state_of (joyCallback joy st)) = autorun_flag (toggled joy st)
  ∧ autorun_buffer (state_of (joyCallback joy st)) = autorun_buffer (toggled joy st)
  ∧ enable_autorun_button (state_of (joyCallback joy st)) = enable_autorun_button st.
Proof.
  destruct (joyCallback_members joy st) as ((_&Hf&_&_&He&Hb&_) & _).
  destruct (toggled_members joy st) as (_&_&_&He'&_).
  repeat split; congruence.
Qed.

(** C3: with the toggle button configured and in range, the button values 0
    then 1 over two consecutive samples flip [autorun_flag]; 1 then 1 and 1
    then 0 leave it as it is. *)
Theorem C3_toggle_on_rising_edge_only st j1 j2 :
  0 ≤ enable_autorun_button st →
  let b := Z.to_nat (enable_autorun_button st) in
  let s1 := state_of (joyCallback j1 st) in
  let s2 := state_of (joyCallback j2 s1) in
  (buttons j1 !! b = Some 0 → buttons j2 !! b = Some 1 →
   autorun_flag s2 = negb (autorun_flag s1))
  ∧ (buttons j1 !! b = Some 1 → buttons j2 !! b = Some 1 →
     autorun_flag s2 = autorun_flag s1)
  ∧ (buttons j1 !! b = Some 1 → buttons j2 !! b = Some 0 →
     autorun_flag s2 = autorun_flag s1).
Proof.
  intros Hge b s1 s2.
  destruct (joyCallback_toggle j1 st) as (Hf1 & Hb1 & He1).
  destruct (joyCallback_toggle j2 s1) as (Hf2 & _ & _).
  assert (Hstep : ∀ v1 v2, buttons j1 !! b = Some v1 → buttons j2 !! b = Some v2 →
            autorun_flag s2
            = if 0 <? v2 - v1 then negb (autorun_flag s1) else autorun_flag s1).
  { intros v1 v2 H1 H2.
    destruct (toggled_in_range j1 st v1 Hge H1) as (_ & Hbuf).
    assert (Hge' : 0 ≤ enable_autorun_button s1) by (fold s1 in He1; lia).
    assert (H2' : buttons j2 !! Z.to_nat (enable_autorun_button s1) = Some v2)
      by (fold s1 in He1; by rewrite He1).
    destruct (toggled_in_range j2 s1 v2 Hge' H2') as (Hfl & _).
    fold s2 in Hf2. rewrite Hf2, Hfl.
    fold s1 in Hb1. by rewrite Hb1, Hbuf. }
  repeat split; intros H1 H2; by rewrite (Hstep _ _ H1 H2).
Qed.

(** C4, as the code has it: the button value is stored as [autorun_buffer]
    on every sample that has the toggle button, whether or not an edge was
    seen; on a sample without it [autorun_buffer] keeps its value. *)
Theorem C4_buffer_stored_when_in_range st joy :
  autorun_buffer (state_of (joyCallback joy st))
  = if (0 <=? enable_autorun_button st)
       && (enable_autorun_button st <? size_int (buttons joy))
    then nth (Z.to_nat (enable_autorun_button st)) (buttons joy) 0
    else autorun_buffer st.
Proof.
  destruct (joyCallback_toggle joy st) as (_ & -> & _).
  unfold toggled, button_at. cbn.
  destruct ((0 <=? enable_autorun_button st)
            && (enable_autorun_button st <? size_int (buttons joy))); [|done].
  by fields.
Qed.

(** ** The clamp *)

(** The result of the clamp is the limit, its opposite or the value. *)
Lemma clamp_cases limit v :
  clamp limit v = limit ∨ clamp limit v = SFopp limit ∨ clamp limit v = v.
Proof. unfold clamp. repeat case_match; auto. Qed.

(** Where a comparison of the clamp holds, the result is one of the two
    bounds; where neither holds, it is the value. *)
Lemma clamp_outside limit v :
  SFltb limit v = true ∨ SFltb v (SFopp limit) = true →
  clamp limit v = limit ∨ clamp limit v = SFopp limit.
Proof. unfold clamp. intros [H|H]; repeat case_match; auto; congruence. Qed.

Lemma clamp_inside limit v :
  SFltb limit v = false → SFltb v (SFopp limit) = false → clamp limit v = v.
Proof. unfold clamp. by intros -> ->. Qed.

(** For a limit that is not negative the clamp gives a NaN, which only a
    NaN value does, or a number between the opposite of the limit and the
    limit. *)
Lemma clamp_within limit v :
  SFleb Float.zero limit = true →
  (clamp limit v = S754_nan ∧ v = S754_nan)
  ∨ (SFleb (SFopp limit) (clamp limit v) = true
     ∧ SFleb (clamp limit v) limit = true).
Proof.
  intros Hpos. destruct (SFopp_nonneg limit Hpos) as (Hle & _ & Hlt).
  pose proof (SFleb_not_nan_r _ _ Hpos) as Hnan.
  pose proof (SFopp_not_nan _ Hnan) as Hnan'.
  unfold clamp. destruct (SFltb limit v) eqn:E1.
  - rewrite Hlt. right. by rewrite Hle, SFleb_refl.
  - destruct (SFltb v (SFopp limit)) eqn:E2.
    + right. by rewrite Hle, SFleb_refl.
    + assert (v = S754_nan ∨ v ≠ S754_nan) as [->|Hv]
        by (destruct v; (by left) || (by right)); [by left|].
      right. split; by apply SFltb_false_SFleb.
Qed.

Lemma joyCallback_x_limit joy st : x_limit (state_of (joyCallback joy st)) = x_limit st.
Proof.
  destruct (joyCallback_members joy st) as (Hs & _).
  rewrite (same_settings_x_limit _ _ Hs), !x_limit_looks2.
  by destruct (toggled_members joy st) as (_&_&_&_&_&->&_).
Qed.

(** C5, as the code has it: after a sample whose accesses stay inside the
    vectors, whatever the members were before, and for a single-precision
    limit [1.0f * scale_linear_map["autorun"]["x"]] that is not negative,
    [speed_x_max] is a NaN or lies between the opposite of the limit and
    the limit. *)
Theorem C5_ramp_speed_within_nonnegative_limit st joy :
  let s := state_of (joyCallback joy st) in
  all_within (trace_of (joyCallback joy st)) →
  SFleb Float.zero (x_limit s) = true →
  speed_x_max s = S754_nan
  ∨ (SFleb (SFopp (x_limit s)) (speed_x_max s) = true
     ∧ SFleb (speed_x_max s) (x_limit s) = true).
Proof.
  cbv zeta. intros _. rewrite joyCallback_x_limit. intros Hpos.
  destruct (joyCallback_members joy st) as (_ & -> & _).
  destruct (autorun_flag (toggled joy st)).
  - destruct (clamp_within (x_limit st)
                (accumulated (speed_x_max st) (linear_input joy st "autorun" "x"))
                Hpos) as [[-> _]|H]; auto.
  - right. destruct (SFopp_nonneg _ Hpos) as (_ & H & _). by split.
Qed.

(** C7: when no access of the two samples leaves its vector, a sample
    processed with [autorun_flag] false leaves [speed_x_max] at 0, already
    when the mode is chosen; the next sample processed with [autorun_flag]
    true accumulates from 0, whatever [speed_x_max] was before. *)
Theorem C7_ramp_restarts_from_zero st j1 j2 :
  let s1 := state_of (joyCallback j1 st) in
  let s2 := state_of (joyCallback j2 s1) in
  all_within (trace_of (joyCallback j1 st)) →
  all_within (trace_of (joyCallback j2 s1)) →
  autorun_flag s1 = false →
  autorun_flag s2 = true →
  speed_x_max (prepared j1 st) = Float.zero
  ∧ speed_x_max s1 = Float.zero
  ∧ speed_x_max s2
    = clamp (x_limit s1)
        (accumulated Float.zero (linear_input j2 s1 "autorun" "x")).
Proof.
  intros s1 s2 _ _ Hoff Hon.
  destruct (joyCallback_toggle j1 st) as (Hf1 & _).
  destruct (joyCallback_toggle j2 s1) as (Hf2 & _).
  fold s1 in Hf1. fold s2 in Hf2. rewrite Hoff in Hf1. rewrite Hon in Hf2.
  destruct (prepared_members j1 st) as (_ & _ & _ & _ & Hp).
  destruct (joyCallback_members j1 st) as (_ & H1 & _).
  destruct (joyCallback_members j2 s1) as (_ & H2 & _).
  fold s1 in H1. fold s2 in H2.
  rewrite <- Hf1 in Hp, H1. rewrite <- Hf2 in H2.
  repeat split; [done|done|]. by rewrite H2, H1.
Qed.

(** The inputs of a sample are read from maps the toggle block and the
    reset leave alone. *)
Lemma prepared_inputs joy st w f :
  linear_input joy (prepared joy st) w f = linear_input joy st w f
  ∧ angular_input joy (prepared joy st) w f = angular_input joy st w f
  ∧ adjustment_input joy (prepared joy st) w f = adjustment_input joy st w f
  ∧ yaw_limit (prepared joy st) = yaw_limit st.
Proof.
  destruct (prepared_members joy st) as (Hset & Hsl & Hsa & _).
  destruct Hset as (_&_&_&_&_&_&Hal&Haa&Hadj&_).
  destruct (toggled_members joy st) as (_&_&_&_&Hal'&_&Haa'&Hadj'&_).
  unfold linear_input, angular_input,
    adjustment_input, yaw_limit.
  by rewrite Hsl, Hsa, Hal, Haa, Hadj, Hal', Haa', Hadj'.
Qed.

(** C8, as the code has it: a sample processed in Autorun mode whose
    accesses stay inside the vectors publishes one command.  Its angular z
    is the single-precision sum of the two yaw inputs, clamped by the two
    comparisons of the code against the single-precision limit
    [1.0f * scale_angular_map["autorun"]["yaw"]]: the limit or its opposite
    where the sum is above the limit or below its opposite, the sum itself
    where it is neither; for a limit that is not negative it is a NaN or
    lies between the opposite of the limit and the limit. *)
Theorem C8_autorun_yaw_is_clamped_sum st joy :
  all_within (trace_of (joyCallback joy st)) →
  mode_taken joy (toggled joy st) = Autorun →
  ∃ cmd_vel_msg,
    published (trace_of (joyCallback joy st)) = [cmd_vel_msg]
    ∧ let sum := Float.add (Float.of_double (angular_input joy st "autorun" "yaw"))
                   (Float.of_double (adjustment_input joy st "autorun" "yaw")) in
      let limit := yaw_limit st in
      ∃ yaw,
        Msg.z (Msg.angular cmd_vel_msg) = Double.of_float yaw
        ∧ yaw = clamp limit sum
        ∧ (SFltb limit sum = true ∨ SFltb sum (SFopp limit) = true →
           yaw = limit ∨ yaw = SFopp limit)
        ∧ (SFltb limit sum = false → SFltb sum (SFopp limit) = false → yaw = sum)
        ∧ (SFleb Float.zero limit = true →
           yaw = S754_nan
           ∨ (SFleb (SFopp limit) yaw = true ∧ SFleb yaw limit = true)).
Proof.
  intros _ Hmode.
  destruct (joyCallback_dispatch joy st) as [_ ->]. rewrite Hmode. cbn [handler].
  assert (Hflag : autorun_flag (prepared joy st) = true).
  { destruct (prepared_members joy st) as ((_&->&_) & _).
    unfold mode_taken in Hmode.
    destruct (autorun_flag (toggled joy st)); [done|].
    repeat case_match; discriminate. }
  destruct (sendCmdVelMsg_spec joy "autorun" (prepared joy st))
    as (_ & _ & _ & cmd & Hpub & _ & Hz).
  exists cmd. split; [exact Hpub|]. cbv zeta.
  rewrite Hflag in Hz. rewrite Hz.
  destruct (prepared_inputs joy st "autorun" "yaw") as (_ & -> & -> & ->).
  eexists. split; [reflexivity|]. split; [reflexivity|].
  split; [apply clamp_outside|]. split; [apply clamp_inside|].
  intros Hpos.
  match goal with
  | |- clamp ?l ?v = _ ∨ _ => destruct (clamp_within l v Hpos) as [[-> _]|H]; auto
  end.
Qed.

(** ** The stop command *)

Lemma spin_cons joy rest st :
  state_of (spin (joy :: rest) st) = state_of (spin rest (state_of (joyCallback joy st)))
  ∧ trace_of (spin (joy :: rest) st)
    = trace_of (joyCallback joy st)
      ++ trace_of (spin rest (state_of (joyCallback joy st))).
Proof. split; reflexivity. Qed.

(** Over a run of samples that are all processed as Disabled, the zero
    command goes out on the first one if no stop was sent yet, and nothing
    after it. *)
Lemma disabled_run_published samples : ∀ st,
  Forall (λ mode, mode = Disabled) (modes samples st) →
  published (trace_of (spin samples st))
  = (if sent_disable_msg st then []
     else match samples with [] => [] | _ :: _ => [Msg.zero] end)
  ∧ (samples ≠ [] → sent_disable_msg (state_of (spin samples st)) = true).
Proof.
  induction samples as [|joy rest IH]; intros st Hall.
  - cbn. by destruct (sent_disable_msg st).
  - cbn [modes] in Hall. apply Forall_cons in Hall as [Hmode Hrest].
    destruct (spin_cons joy rest st) as [Hst Htr]. rewrite Hst, Htr.
    pose proof (joyCallback_published joy st) as Hpub. rewrite Hmode in Hpub.
    destruct (joyCallback_members joy st) as (_ & _ & Hsent).
    rewrite Hmode in Hsent.
    destruct (IH _ Hrest) as [IHpub IHsent].
    rewrite published_app, Hpub, IHpub, Hsent. split.
    + destruct (sent_disable_msg st); reflexivity.
    + intros _. destruct rest as [|joy' rest']; [exact Hsent|].
      by apply IHsent.
Qed.

(** C9: where no access leaves its vector, a sample processed as Disabled
    publishes the zero command exactly when [sent_disable_msg] is false, and
    leaves it true; a sample processed in any other mode publishes one
    command and leaves it false; so a run of consecutive Disabled samples
    publishes the zero command on its first sample only, and only if no stop
    had been sent. *)
Theorem C9_single_stop_per_disabled_interval :
  (∀ st joy,
     let r := joyCallback joy st in
     all_within (trace_of r) →
     match mode_taken joy (toggled joy st) with
     | Disabled =>
       published (trace_of r) = (if sent_disable_msg st then [] else [Msg.zero])
       ∧ sent_disable_msg (state_of r) = true
     | _ =>
       (∃ cmd_vel_msg, published (trace_of r) = [cmd_vel_msg])
       ∧ sent_disable_msg (state_of r) = false
     end)
  ∧ (∀ st samples,
       all_within (trace_of (spin samples st)) →
       Forall (λ mode, mode = Disabled) (modes samples st) →
       published (trace_of (spin samples st))
       = if sent_disable_msg st then []
         else match samples with [] => [] | _ :: _ => [Msg.zero] end).
Proof.
  split.
  - intros st joy. cbv zeta. intros _.
    pose proof (joyCallback_published joy st) as Hpub.
    destruct (joyCallback_members joy st) as (_ & _ & Hsent).
    destruct (mode_taken joy (toggled joy st)); by split.
  - intros st samples _ Hall. by apply disabled_run_published.
Qed.

(** ** The ramp *)





(** ** The order of the modes *)

(** With an enable button index that is not negative (or no enable
    requirement) the branch taken is the one the specification names. *)
Lemma mode_taken_spec_mode joy st :
  0 ≤ enable_button st ∨ require_enable_button st = false →
  mode_taken joy st = spec_mode (autorun_flag st) st joy.
Proof.
  intros Hok.
  unfold mode_taken, spec_mode, pressed, is_pressed, in_range,
    button_at, size_int. cbn [fst mbind R_bind mret R_ret record].
  destruct (autorun_flag st); [done|].
  rewrite !nth_lookup.
  assert (Hturbo :
    (0 <=? enable_turbo_button st)
    && (enable_turbo_button st <? Z.of_nat (length (buttons joy)))
    && negb ((if (0 <=? enable_turbo_button st)
                 && (enable_turbo_button st <? Z.of_nat (length (buttons joy)))
              then default 0 (buttons joy !! Z.to_nat (enable_turbo_button st))
              else wild_button (enable_turbo_button st)) =? 0)
    = (0 <=? enable_turbo_button st)
      && ((0 <=? enable_turbo_button st)
          && (enable_turbo_button st <? Z.of_nat (length (buttons joy))))
      && ((0 <=? enable_turbo_button st)
          && (enable_turbo_button st <? Z.of_nat (length (buttons joy)))
          && negb (default 0 (buttons joy !! Z.to_nat (enable_turbo_button st)) =? 0))).
  { destruct (0 <=? enable_turbo_button st); [|done].
    by destruct (enable_turbo_button st <? Z.of_nat (length (buttons joy))). }
  rewrite Hturbo. clear Hturbo. case_match; [done|].
  destruct Hok as [Hge| ->]; [|done].
  apply Z.leb_le in Hge. rewrite Hge. cbn [andb].
  destruct (enable_button st <? Z.of_nat (length (buttons joy))); cbn [andb]; done.
Qed.

(** For such members, a sample whose accesses stay inside the vectors is
    processed as the specification's order says: what the callback leaves
    and publishes is what the handler of the mode leaves and publishes. *)
Theorem mode_priority_with_valid_enable_button joy st :
  all_within (trace_of (joyCallback joy st)) →
  0 ≤ enable_button st ∨ require_enable_button st = false →
  let mode := spec_mode (autorun_flag (toggled joy st)) st joy in
  state_of (joyCallback joy st) = state_of (handler joy mode (prepared joy st))
  ∧ published (trace_of (joyCallback joy st))
    = published (trace_of (handler joy mode (prepared joy st))).
Proof.
  intros _ Hok mode.
  assert (Hmode : mode_taken joy (toggled joy st) = mode).
  { destruct (toggled_members joy st) as (Hreq & Heb & Hetb & _).
    rewrite mode_taken_spec_mode by (rewrite Heb, Hreq; exact Hok).
    unfold mode, spec_mode. by rewrite Hreq, Heb, Hetb. }
  rewrite <- Hmode. apply joyCallback_dispatch.
Qed.

(** ** Accesses to the sample *)

(** The log line reads [buttons[enable_autorun_button]] on every sample. *)
Lemma log_line_reads_toggle_button joy st :
  Index Buttons (enable_autorun_button st) (length (buttons joy))
  ∈ trace_of (joyCallback joy st).
Proof.
  destruct st as [req flag eb etb eab buf alm slm aam adj sam spd sent].
  match goal with
  | |- _ ∈ trace_of (joyCallback _ ?st) =>
    change (wp (joyCallback joy) st (λ _ _ t,
      Index Buttons (enable_autorun_button st) (length (buttons joy)) ∈ t))
  end.
  unfold joyCallback. repeat wp_step.
  all: unfold wp; fields; cbn [button_at snd mbind R_bind record mret R_ret];
    cbn [app]; by left.
Qed.

(** C2, at the default configuration: [enable_autorun_button] is -1 and the
    log line indexes [buttons] at -1, outside the six buttons of the sample. *)
Theorem C2_default_configuration_reads_out_of_bounds :
  let t := trace_of (joyCallback enable_held initial) in
  Index Buttons (-1) 6 ∈ t ∧ forallb within t = false.
Proof.
  cbv zeta. split.
  - apply (log_line_reads_toggle_button enable_held initial).
  - vm_compute. reflexivity.
Qed.



(** [getVal] stays inside [axes] for an index that is -1 or not negative. *)
Lemma getVal_within joy am sm f :
  (∀ i, am !! f = Some i → -1 ≤ i) → all_within (getVal joy am sm f).2.
Proof.
  intros Hmapped. unfold getVal, all_within.
  destruct (am !! f) as [idx|] eqn:Eidx; [|by constructor].
  specialize (Hmapped idx eq_refl).
  destruct (Z.eqb_spec idx (-1)); [by constructor|].
  destruct (sm !! f); [|by constructor].
  destruct (Z.leb_spec (size_int (axes joy)) idx); [by constructor|].
  repeat constructor. cbn [within]. unfold size_int in *.
  apply andb_true_intro. split; [apply Z.leb_le|apply Z.ltb_lt]; lia.
Qed.

Lemma sendCmdVelMsg_within joy w st :
  axes_mapped st → all_within (trace_of (sendCmdVelMsg joy w st)).
Proof.
  intros Hmapped.
  assert (Hl : ∀ sm f, all_within (getVal joy (axis_linear_map st) sm f).2)
    by (intros; apply getVal_within; intros i Hi; apply (Hmapped f i); auto).
  assert (Ha : ∀ sm f, all_within (getVal joy (axis_angular_map st) sm f).2)
    by (intros; apply getVal_within; intros i Hi; apply (Hmapped f i); auto).
  assert (Hadj : ∀ sm f,
            all_within (getVal joy (axis_angular_adjustment_map st) sm f).2)
    by (intros; apply getVal_within; intros i Hi; apply (Hmapped f i); auto).
  change (wp (sendCmdVelMsg joy w) st (λ _ _ t, all_within t)).
  unfold sendCmdVelMsg. repeat wp_step;
    unfold all_within in *; rewrite ?Forall_app; repeat split;
    first [apply Hl | apply Ha | apply Hadj | by repeat constructor].
Qed.

(** What C2 asks for holds where the code checks both bounds: when the
    toggle button exists in the sample, the enable button index is not negative
    (or no enable button is required) and every axis index is -1 or not
    negative, one sample indexes [axes] and [buttons] inside their bounds
    only. *)
Theorem guarded_accesses_within_bounds joy st :
  0 ≤ enable_autorun_button st < size_int (buttons joy) →
  0 ≤ enable_button st ∨ require_enable_button st = false →
  axes_mapped st →
  all_within (trace_of (joyCallback joy st)).
Proof.
  destruct st as [req flag eb etb eab buf alm slm aam adj sam spd sent].
  fields. intros Heab Heb Hmapped.
  assert (Hsend : ∀ w v1 v2 v3 v4,
            all_within (trace_of (sendCmdVelMsg joy w
              (Build_Impl req v1 eb etb eab v2 alm slm aam adj sam v3 v4)))).
  { intros. apply sendCmdVelMsg_within. intros f i Hi. apply (Hmapped f i Hi). }
  assert (Hlog : within (Index Buttons eab (length (buttons joy))) = true).
  { cbn [within]. unfold size_int in *.
    apply andb_true_intro. split; [apply Z.leb_le|apply Z.ltb_lt]; lia. }
  match goal with
  | |- all_within (trace_of (joyCallback _ ?st)) =>
    change (wp (joyCallback joy) st (λ _ _ t, all_within t))
  end.
  unfold joyCallback. repeat wp_step.
  all: unfold wp, all_within in *; fields;
    cbn [button_at snd mbind R_bind record mret R_ret];
    rewrite ?Forall_app; repeat split;
    repeat (apply Forall_cons; split); try apply Forall_nil; try exact Hlog;
    try apply Hsend; try reflexivity.
  all: cbn [within]; unfold size_int in *;
    repeat match goal with
           | H : _ && _ = true |- _ => apply andb_true_iff in H as [? ?]
           | H : _ && _ = false |- _ => apply andb_false_iff in H as [?|?]
           | H : (_ <=? _) = true |- _ => apply Z.leb_le in H
           | H : (_ <=? _) = false |- _ => apply Z.leb_gt in H
           | H : (_ <? _) = true |- _ => apply Z.ltb_lt in H
           | H : (_ <? _) = false |- _ => apply Z.ltb_ge in H
           | H : _ ∨ true = false |- _ => destruct H as [?|?]; [|discriminate]
           | |- _ && _ = true => apply andb_true_intro; split
           | |- (_ <=? _) = true => apply Z.leb_le
           | |- (_ <? _) = true => apply Z.ltb_lt
           end; lia.
Qed.


(** * Further properties of the callbacks *)

(** ** The command of [sendCmdVelMsg] *)

Lemma getVal_scale_ext joy am sm sm' f :
  sm !! f = sm' !! f → getVal joy am sm f = getVal joy am sm' f.
Proof. intros H. unfold getVal. by rewrite H. Qed.

Lemma inner_subscript (m : gmap string (gmap string double)) k k' f :
  default ∅ ((subscript ∅ m k).1 !! k') !! f = default ∅ (m !! k') !! f.
Proof. by rewrite subscript_fst_lookup. Qed.

Lemma inner_subscript2 m a b k f :
  f ≠ b →
  default ∅ ((subscript2 m a b).1 !! k) !! f = default ∅ (m !! k) !! f.
Proof.
  intros Hne. unfold subscript2. cbn.
  destruct (decide (a = k)) as [->|Hk].
  - rewrite lookup_insert_eq. cbn.
    rewrite (subscript_snd ∅ m k). unfold subscript at 1.
    destruct (default ∅ (m !! k) !! b); cbn; [done|].
    by rewrite lookup_insert_ne.
  - rewrite lookup_insert_ne by done. apply inner_subscript.
Qed.

(** The scale table handed to [getVal] for a field other than the two that
    the autorun limits insert is the one of the mode. *)
Ltac same_table :=
  unfold linear_input, angular_input;
  apply (f_equal fst), getVal_scale_ext;
  rewrite !subscript_snd;
  repeat (rewrite inner_subscript || rewrite inner_subscript2 by done);
  reflexivity.

(** The four fields that [sendCmdVelMsg] fills after the [if]. *)
Lemma sendCmdVelMsg_side_fields joy w st :
  ∃ cmd_vel_msg,
    published (trace_of (sendCmdVelMsg joy w st)) = [cmd_vel_msg]
    ∧ Msg.y (Msg.linear cmd_vel_msg) = linear_input joy st w "y"
    ∧ Msg.z (Msg.linear cmd_vel_msg) = linear_input joy st w "z"
    ∧ Msg.y (Msg.angular cmd_vel_msg) = angular_input joy st w "pitch"
    ∧ Msg.x (Msg.angular cmd_vel_msg) = angular_input joy st w "roll".
Proof.
  change (wp (sendCmdVelMsg joy w) st (λ _ _ t,
    ∃ cmd_vel_msg,
      published t = [cmd_vel_msg]
      ∧ Msg.y (Msg.linear cmd_vel_msg) = linear_input joy st w "y"
      ∧ Msg.z (Msg.linear cmd_vel_msg) = linear_input joy st w "z"
      ∧ Msg.y (Msg.angular cmd_vel_msg) = angular_input joy st w "pitch"
      ∧ Msg.x (Msg.angular cmd_vel_msg) = angular_input joy st w "roll")).
  unfold sendCmdVelMsg. repeat wp_step;
    (eexists; split;
       [rewrite !published_app, !getVal_published; reflexivity|]);
    cbn [Msg.x Msg.y Msg.z Msg.linear Msg.angular];
    repeat split; same_table.
Qed.

Lemma not_autorun_flag joy st :
  mode_taken joy st ≠ Autorun → autorun_flag st = false.
Proof. unfold mode_taken. by destruct (autorun_flag st). Qed.

Lemma autorun_flag_mode joy st :
  mode_taken joy st = Autorun → autorun_flag st = true.
Proof.
  unfold mode_taken. destruct (autorun_flag st); [done|].
  repeat case_match; discriminate.
Qed.

Lemma prepared_flag joy st :
  autorun_flag (prepared joy st) = autorun_flag (toggled joy st).
Proof. by destruct (prepared_members joy st) as ((_&->&_) & _). Qed.

(** The command of one call, field by field. *)
Lemma sendCmdVelMsg_command joy w st :
  published (trace_of (sendCmdVelMsg joy w st))
  = [ {| Msg.linear :=
           {| Msg.x := Double.of_float
                         (if autorun_flag st
                          then speed_x_max (state_of (sendCmdVelMsg joy w st))
                          else Float.of_double (linear_input joy st w "x"));
              Msg.y := linear_input joy st w "y";
              Msg.z := linear_input joy st w "z" |};
         Msg.angular :=
           {| Msg.x := angular_input joy st w "roll";
              Msg.y := angular_input joy st w "pitch";
              Msg.z := Double.of_float
                         (if autorun_flag st
                          then clamp (yaw_limit st)
                                 (Float.add
                                    (Float.of_double (angular_input joy st w "yaw"))
                                    (Float.of_double (adjustment_input joy st w "yaw")))
                          else Float.of_double (angular_input joy st w "yaw")) |} |} ].
Proof.
  destruct (sendCmdVelMsg_spec joy w st)
    as (_ & _ & _ & cmd & Hpub & Hx & Hz).
  destruct (sendCmdVelMsg_side_fields joy w st)
    as (cmd' & Hpub' & Hy & Hlz & Hpitch & Hroll).
  rewrite Hpub in Hpub'. injection Hpub' as <-. rewrite Hpub.
  destruct cmd as [[lx ly lz] [ax ay az]].
  cbn [Msg.x Msg.y Msg.z Msg.linear Msg.angular] in *. by subst.
Qed.

(** ** What a sample publishes and leaves *)

(** In Normal and in Turbo mode the command of a sample whose accesses stay
    inside the vectors is the six scaled axis readings under the scale table
    of the mode: x, y, z into linear, roll, pitch, yaw into angular x, y, z.
    Linear x and angular z pass through a [float_t] variable and are rounded
    to single precision on the way; the other four are the [double]
    products.  Nothing is accumulated. *)
Theorem direct_modes_publish_scaled_axes joy st w :
  all_within (trace_of (joyCallback joy st)) →
  mode_taken joy (toggled joy st) = Normal ∧ w = "normal"
  ∨ mode_taken joy (toggled joy st) = Turbo ∧ w = "turbo" →
  published (trace_of (joyCallback joy st))
  = [ {| Msg.linear :=
           {| Msg.x := Double.of_float (Float.of_double (linear_input joy st w "x"));
              Msg.y := linear_input joy st w "y";
              Msg.z := linear_input joy st w "z" |};
         Msg.angular :=
           {| Msg.x := angular_input joy st w "roll";
              Msg.y := angular_input joy st w "pitch";
              Msg.z := Double.of_float
                         (Float.of_double (angular_input joy st w "yaw")) |} |} ]
  ∧ speed_x_max (state_of (joyCallback joy st)) = Float.zero.
Proof.
  intros _ Hmode.
  assert (Hflag : autorun_flag (toggled joy st) = false)
    by (apply (not_autorun_flag joy); destruct Hmode as [[-> _]|[-> _]]; done).
  assert (Hhandler : handler joy (mode_taken joy (toggled joy st))
                     = sendCmdVelMsg joy w)
    by (destruct Hmode as [[-> ->]|[-> ->]]; reflexivity).
  split.
  - destruct (joyCallback_dispatch joy st) as [_ ->].
    rewrite Hhandler, sendCmdVelMsg_command, prepared_flag, Hflag.
    destruct (prepared_inputs joy st w "x") as (-> & _).
    destruct (prepared_inputs joy st w "y") as (-> & _).
    destruct (prepared_inputs joy st w "z") as (-> & _).
    destruct (prepared_inputs joy st w "roll") as (_ & -> & _).
    destruct (prepared_inputs joy st w "pitch") as (_ & -> & _).
    by destruct (prepared_inputs joy st w "yaw") as (_ & -> & _).
  - destruct (joyCallback_members joy st) as (_ & -> & _).
    by rewrite Hflag.
Qed.

(** In Autorun mode the command of a sample whose accesses stay inside the
    vectors carries the new [speed_x_max] as linear x and, as angular z, the
    single-precision sum of the two yaw readings clamped against the
    single-precision yaw limit, both widened to [double]; the other four
    fields are the scaled axis readings under the autorun table. *)
Theorem autorun_publishes_ramp_and_scaled_axes joy st :
  all_within (trace_of (joyCallback joy st)) →
  mode_taken joy (toggled joy st) = Autorun →
  published (trace_of (joyCallback joy st))
  = [ {| Msg.linear :=
           {| Msg.x := Double.of_float (speed_x_max (state_of (joyCallback joy st)));
              Msg.y := linear_input joy st "autorun" "y";
              Msg.z := linear_input joy st "autorun" "z" |};
         Msg.angular :=
           {| Msg.x := angular_input joy st "autorun" "roll";
              Msg.y := angular_input joy st "autorun" "pitch";
              Msg.z := Double.of_float
                         (clamp (yaw_limit st)
                            (Float.add
                               (Float.of_double (angular_input joy st "autorun" "yaw"))
                               (Float.of_double
                                  (adjustment_input joy st "autorun" "yaw")))) |} |} ].
Proof.
  intros _ Hmode.
  pose proof (autorun_flag_mode _ _ Hmode) as Hflag.
  destruct (joyCallback_dispatch joy st) as [-> ->].
  rewrite Hmode. cbn [handler].
  rewrite sendCmdVelMsg_command, prepared_flag, Hflag.
  destruct (prepared_inputs joy st "autorun" "y") as (-> & _).
  destruct (prepared_inputs joy st "autorun" "z") as (-> & _).
  destruct (prepared_inputs joy st "autorun" "roll")
    as (_ & -> & _).
  destruct (prepared_inputs joy st "autorun" "pitch")
    as (_ & -> & _).
  by destruct (prepared_inputs joy st "autorun" "yaw")
    as (_ & -> & -> & ->).
Qed.

(** A sample whose accesses stay inside the vectors publishes at most one
    command, and none exactly when it is processed as Disabled after the stop
    command has gone out. *)
Theorem at_most_one_command_per_sample joy st :
  all_within (trace_of (joyCallback joy st)) →
  (length (published (trace_of (joyCallback joy st))) ≤ 1)%nat
  ∧ (published (trace_of (joyCallback joy st)) = []
     ↔ mode_taken joy (toggled joy st) = Disabled ∧ sent_disable_msg st = true).
Proof.
  intros _.
  pose proof (joyCallback_published joy st) as Hpub.
  destruct (mode_taken joy (toggled joy st)) eqn:Hmode.
  - rewrite Hpub. destruct (sent_disable_msg st); cbn; split; try lia;
      split; try done; by intros [_ ?].
  - destruct Hpub as [cmd ->]. cbn. split; [lia|]. split; [done|by intros [? _]].
  - destruct Hpub as [cmd ->]. cbn. split; [lia|]. split; [done|by intros [? _]].
  - destruct Hpub as [cmd ->]. cbn. split; [lia|]. split; [done|by intros [? _]].
Qed.

(** A sample never changes the configuration: the enable requirement, the
    three button indices and the three axis maps stay as they are, and every
    scale reads as before. *)
Theorem joyCallback_keeps_configuration joy st :
  let s := state_of (joyCallback joy st) in
  require_enable_button s = require_enable_button st
  ∧ enable_button s = enable_button st
  ∧ enable_turbo_button s = enable_turbo_button st
  ∧ enable_autorun_button s = enable_autorun_button st
  ∧ axis_linear_map s = axis_linear_map st
  ∧ axis_angular_map s = axis_angular_map st
  ∧ axis_angular_adjustment_map s = axis_angular_adjustment_map st
  ∧ (∀ k1 k2, looks2 (scale_linear_map s) k1 k2 = looks2 (scale_linear_map st) k1 k2)
  ∧ (∀ k1 k2, looks2 (scale_angular_map s) k1 k2 = looks2 (scale_angular_map st) k1 k2).
Proof.
  cbv zeta.
  destruct (joyCallback_members joy st)
    as ((H1&_&H3&H4&H5&_&H7&H8&H9&Hl&Ha) & _).
  destruct (toggled_members joy st)
    as (T1&T3&T4&T5&T7&Tsl&T8&T9&Tsa&_).
  repeat split; congruence.
Qed.

(** ** The ramp without input and with a negative limit *)

(** In Autorun mode a sample without forward input keeps [speed_x_max] as it
    is, as long as it lies within the limit: the speed target persists.  The
    speed is the same [float], but for the sign of a zero: -0 plus +0
    is +0. *)
Theorem autorun_holds_speed_without_input joy st sign :
  mode_taken joy (toggled joy st) = Autorun →
  linear_input joy st "autorun" "x" = S754_zero sign →
  SFleb (SFopp (x_limit st)) (speed_x_max st) = true →
  SFleb (speed_x_max st) (x_limit st) = true →
  let speed := speed_x_max (state_of (joyCallback joy st)) in
  SFeqb speed (speed_x_max st) = true
  ∧ (speed = speed_x_max st
     ∨ speed = Float.zero ∧ speed_x_max st = S754_zero true).
Proof.
  intros Hmode Hin Hlo Hhi. cbv zeta.
  destruct (joyCallback_members joy st) as (_ & -> & _).
  rewrite (autorun_flag_mode _ _ Hmode), Hin. unfold accumulated.
  generalize dependent (x_limit st). generalize (speed_x_max st).
  intros speed limit Hlo Hhi.
  assert (Hnan : speed ≠ S754_nan) by (intros ->; by destruct limit).
  assert (Hadd : Float.add speed (Float.div (Float.of_double (S754_zero sign))
                                    (Float.of_Z 10)) = speed
                 ∨ (Float.add speed (Float.div (Float.of_double (S754_zero sign))
                                       (Float.of_Z 10)) = Float.zero
                    ∧ speed = S754_zero true)).
  { destruct speed as [s| | |]; try done; try (by left).
    destruct s, sign; cbn; auto. }
  assert (Hin1 : SFltb limit speed = false).
  { revert Hhi. unfold SFleb, SFltb. rewrite (SFcompare_antisym speed limit).
    by destruct (SFcompare speed limit) as [[]|]. }
  assert (Hin2 : SFltb speed (SFopp limit) = false).
  { revert Hlo. unfold SFleb, SFltb. rewrite (SFcompare_antisym (SFopp limit) speed).
    by destruct (SFcompare (SFopp limit) speed) as [[]|]. }
  destruct Hadd as [->|[-> ->]].
  - rewrite clamp_inside by done. split; [|by left].
    unfold SFeqb. by rewrite SFcompare_refl.
  - rewrite clamp_inside; [split; [done|by right]| |].
    + destruct limit; done.
    + destruct limit; done.
Qed.

(** With a negative single-precision limit the two clamp steps leave
    [speed_x_max] at the opposite of the limit after every Autorun sample
    whose accesses stay inside the vectors, whatever the forward input and
    the previous speed, unless the accumulated value is a NaN, which the
    comparisons let through. *)
Theorem negative_limit_pins_speed joy st :
  all_within (trace_of (joyCallback joy st)) →
  mode_taken joy (toggled joy st) = Autorun →
  SFltb (x_limit st) Float.zero = true →
  let speed := speed_x_max (state_of (joyCallback joy st)) in
  speed = SFopp (x_limit st)
  ∨ speed = S754_nan
    ∧ accumulated (speed_x_max st) (linear_input joy st "autorun" "x") = S754_nan.
Proof.
  intros _ Hmode Hneg. cbv zeta.
  destruct (joyCallback_members joy st) as (_ & -> & _).
  rewrite (autorun_flag_mode _ _ Hmode). unfold clamp.
  generalize dependent (x_limit st).
  generalize (accumulated (speed_x_max st) (linear_input joy st "autorun" "x")).
  intros v limit Hneg.
  destruct limit as [s|s| |s m e]; try done; destruct s; try done;
    destruct v as [s'|s'| |s' m' e']; try destruct s'; cbn; auto;
    repeat case_match; auto; try discriminate;
    exfalso;
    match goal with
    | H : SFltb _ _ = _ |- _ => cbn in H; discriminate
    end.
Qed.

(** ** The toggle over a run *)

Lemma rising_test (prev v : Z) : (0 <? v - prev) = (prev <? v).
Proof. destruct (Z.ltb_spec 0 (v - prev)), (Z.ltb_spec prev v); lia || done. Qed.

(** Over a run of samples that all have the toggle button, [autorun_flag]
    ends where it started when the button value rose an even number of times,
    and inverted otherwise; a rise is any increase over the value of the
    sample before (over [autorun_buffer] for the first sample). *)
Theorem autorun_flag_follows_parity_of_rises samples : ∀ st,
  0 ≤ enable_autorun_button st →
  Forall (λ joy, enable_autorun_button st < size_int (buttons joy)) samples →
  autorun_flag (state_of (spin samples st))
  = if Nat.even (rising_edges (autorun_buffer st)
                   (toggle_values (enable_autorun_button st) samples))
    then autorun_flag st
    else negb (autorun_flag st).
Proof.
  induction samples as [|joy rest IH]; intros st Hge Hall; [done|].
  apply Forall_cons in Hall as [Hjoy Hrest].
  destruct (spin_cons joy rest st) as [-> _].
  destruct (joyCallback_toggle joy st) as (Hflag & Hbuf & Heab).
  assert (Hv : buttons joy !! Z.to_nat (enable_autorun_button st)
               = Some (nth (Z.to_nat (enable_autorun_button st)) (buttons joy) 0)).
  { rewrite nth_lookup.
    destruct (lookup_lt_is_Some_2 (buttons joy)
                (Z.to_nat (enable_autorun_button st))) as [v ->]; [|done].
    unfold size_int in Hjoy. lia. }
  destruct (toggled_in_range joy st _ Hge Hv) as (Hflag' & Hbuf').
  rewrite IH; rewrite ?Heab; [|done|done].
  rewrite Hflag, Hbuf, Hflag', Hbuf', rising_test.
  unfold toggle_values. cbn [fmap list_fmap rising_edges].
  set (v := nth (Z.to_nat (enable_autorun_button st)) (buttons joy) 0).
  fold (toggle_values (enable_autorun_button st) rest).
  destruct (autorun_buffer st <? v).
  - change (1 + ?n)%nat with (S n). rewrite Nat.even_succ, <- Nat.negb_even.
    destruct (Nat.even _), (autorun_flag st); reflexivity.
  - cbn [Nat.add]. reflexivity.
Qed.

(** With the toggle button not configured (a negative index) no run of
    samples changes [autorun_flag] or [autorun_buffer]: autorun cannot be
    engaged or released from the pad. *)
Theorem unconfigured_toggle_never_engages samples : ∀ st,
  enable_autorun_button st < 0 →
  autorun_flag (state_of (spin samples st)) = autorun_flag st
  ∧ autorun_buffer (state_of (spin samples st)) = autorun_buffer st.
Proof.
  induction samples as [|joy rest IH]; intros st Hneg; [done|].
  destruct (spin_cons joy rest st) as [-> _].
  destruct (joyCallback_toggle joy st) as (Hflag & Hbuf & Heab).
  assert (Hsame : toggled joy st = st).
  { unfold toggled.
    assert ((0 <=? enable_autorun_button st) = false) as ->
      by (apply Z.leb_gt; lia).
    reflexivity. }
  rewrite Hsame in Hflag, Hbuf.
  destruct (IH (state_of (joyCallback joy st))) as [-> ->]; [by rewrite Heab|].
  by split.
Qed.

End Properties.

(** ** The parameter callback *)

(** Case analysis on whether a name is a given literal. *)
Ltac name_is name lit :=
  let Hne := fresh "Hne" in
  destruct (String.eqb_spec name lit) as [->|Hne];
  [|apply String.eqb_neq in Hne; rewrite ?Hne in *].

Ltac each_name name tac :=
  name_is name "require_enable_button"; [tac|];
  name_is name "enable_button"; [tac|];
  name_is name "enable_turbo_button"; [tac|];
  name_is name "enable_autorun_button"; [tac|];
  name_is name "axis_linear.x"; [tac|];
  name_is name "axis_linear.y"; [tac|];
  name_is name "axis_linear.z"; [tac|];
  name_is name "axis_angular.yaw"; [tac|];
  name_is name "axis_angular.pitch"; [tac|];
  name_is name "axis_angular.roll"; [tac|];
  name_is name "axis_angular_adjustment.yaw"; [tac|];
  name_is name "axis_angular_adjustment.pitch"; [tac|];
  name_is name "axis_angular_adjustment.roll"; [tac|];
  name_is name "scale_linear.x"; [tac|];
  name_is name "scale_linear.y"; [tac|];
  name_is name "scale_linear.z"; [tac|];
  name_is name "scale_linear_turbo.x"; [tac|];
  name_is name "scale_linear_turbo.y"; [tac|];
  name_is name "scale_linear_turbo.z"; [tac|];
  name_is name "scale_linear_autorun.x"; [tac|];
  name_is name "scale_linear_autorun.y"; [tac|];
  name_is name "scale_linear_autorun.z"; [tac|];
  name_is name "scale_angular.yaw"; [tac|];
  name_is name "scale_angular.pitch"; [tac|];
  name_is name "scale_angular.roll"; [tac|];
  name_is name "scale_angular_turbo.yaw"; [tac|];
  name_is name "scale_angular_turbo.pitch"; [tac|];
  name_is name "scale_angular_turbo.roll"; [tac|];
  name_is name "scale_angular_autorun.yaw"; [tac|];
  name_is name "scale_angular_autorun.pitch"; [tac|];
  name_is name "scale_angular_autorun.roll"; [tac|].

(** The three sets of the callback hold the names of the specification's
    table, each under its kind. *)
Lemma checked_kind_expected name : checked_kind name = expected_kind name.
Proof.
  unfold checked_kind, expected_kind, expected_kinds. cbn [expected_kind_in].
  each_name name ltac:(vm_compute; reflexivity).
  apply String.eqb_neq in Hne, Hne0, Hne1, Hne2, Hne3, Hne4, Hne5, Hne6, Hne7,
    Hne8, Hne9, Hne10, Hne11, Hne12, Hne13, Hne14, Hne15, Hne16, Hne17, Hne18,
    Hne19, Hne20, Hne21, Hne22, Hne23, Hne24, Hne25, Hne26, Hne27, Hne28, Hne29.
  rewrite !bool_decide_eq_false_2; [done| | |];
    unfold boolparams, doubleparams, intparams;
    rewrite ?elem_of_union, ?elem_of_singleton; intuition congruence.
Qed.

(** One test of the first loop. *)
Lemma check_kind p k text :
  match (if bool_decide (get_type p ≠ k)
         then Some {| successful := false;
                      reason := text +:+ get_name p +:+ "'." |}
         else None) with
  | Some result =>
    negb (bool_decide (get_type p = k)) = true ∧ successful result = false
    ∧ mentions (reason result) (get_name p)
  | None => negb (bool_decide (get_type p = k)) = false
  end.
Proof.
  destruct (decide (get_type p = k)) as [E|E].
  - rewrite (bool_decide_eq_false_2 (get_type p ≠ k)) by (intros H; by apply H).
    by rewrite bool_decide_eq_true_2.
  - rewrite (bool_decide_eq_true_2 (get_type p ≠ k)) by done.
    rewrite (bool_decide_eq_false_2 (get_type p = k)) by done.
    repeat split. by exists text, "'.".
Qed.

(** The first loop stops at a parameter exactly when its kind is not the
    expected one, with a reason that names it. *)
Lemma check_mismatched p :
  match check p with
  | Some result =>
    mismatched p = true ∧ successful result = false
    ∧ mentions (reason result) (get_name p)
  | None => mismatched p = false
  end.
Proof.
  unfold mismatched. rewrite <- checked_kind_expected.
  unfold check, checked_kind.
  destruct (bool_decide (get_name p ∈ intparams)); [apply check_kind|].
  destruct (bool_decide (get_name p ∈ doubleparams)); [apply check_kind|].
  destruct (bool_decide (get_name p ∈ boolparams)); [apply check_kind|done].
Qed.

(** A parameter of the expected kind, or of a name the callback does not
    know, is assigned without an exception. *)
Lemma assign_total p st : mismatched p = false → is_Some (assign p st).
Proof.
  destruct p as [name v].
  unfold mismatched, assign, expected_kind, expected_kinds, assign_integer,
    assign_double.
  cbn [get_name expected_kind_in]. intros Hkind.
  each_name name ltac:(destruct v; try (vm_compute in Hkind; discriminate);
                       eexists; reflexivity).
  eexists; reflexivity.
Qed.

Lemma check_loop_find parameters :
  match List.find mismatched parameters with
  | Some p =>
    p ∈ parameters ∧ mismatched p = true
    ∧ ∃ result, check_loop parameters = Some result
                ∧ successful result = false
                ∧ mentions (reason result) (get_name p)
  | None =>
    Forall (λ p, mismatched p = false) parameters ∧ check_loop parameters = None
  end.
Proof.
  induction parameters as [|p rest IH]; [by split|].
  cbn [List.find check_loop].
  pose proof (check_mismatched p) as Hp.
  destruct (check p) as [result|].
  - destruct Hp as (Hm & Hfail & Hname). rewrite Hm.
    split; [by left|]. split; [exact Hm|by exists result].
  - rewrite Hp. destruct (List.find mismatched rest) as [q|].
    + destruct IH as (Hin & Hq & Hres). split; [by right|]. by split.
    + destruct IH as (Hall & Hnone). split; [by constructor|done].
Qed.

Lemma assign_loop_total parameters : ∀ st,
  Forall (λ p, mismatched p = false) parameters →
  ∃ st', assign_loop parameters st = (st', true).
Proof.
  induction parameters as [|p rest IH]; intros st Hall.
  - by exists st.
  - apply Forall_cons in Hall as [Hp Hrest]. cbn [assign_loop].
    destruct (assign_total p st Hp) as [st1 ->]. by apply IH.
Qed.

(** C10: when some parameter of the batch has a recognized name and a value
    of another kind than expected, the callback fails with a reason that names
    the first such parameter and returns with the members as they were;
    otherwise it assigns the whole batch and succeeds. *)
Theorem C10_mismatched_kind_rejects_whole_batch parameters st :
  match List.find mismatched parameters with
  | Some p =>
    p ∈ parameters ∧ mismatched p = true
    ∧ ∃ result,
        param_callback parameters st = (st, Some result)
        ∧ successful result = false
        ∧ mentions (reason result) (get_name p)
  | None =>
    Forall (λ p, mismatched p = false) parameters
    ∧ ∃ st',
        param_callback parameters st
        = (st', Some {| successful := true; reason := "" |})
        ∧ assign_loop parameters st = (st', true)
  end.
Proof.
  pose proof (check_loop_find parameters) as Hcheck.
  unfold param_callback.
  destruct (List.find mismatched parameters) as [p|].
  - destruct Hcheck as (Hin & Hp & result & -> & Hfail & Hname).
    split; [done|]. split; [done|]. by exists result.
  - destruct Hcheck as (Hall & ->). split; [done|].
    destruct (assign_loop_total parameters st Hall) as [st' ->]. by exists st'.
Qed.

Lemma assign2_lookup m k1 k2 (v : double) :
  assign2 m k1 k2 v !! k1 ≫= (λ table, table !! k2) = Some v.
Proof. unfold assign2. rewrite lookup_insert_eq. cbn. apply lookup_insert_eq. Qed.

(** An assigned parameter of a recognized name is stored in the member of
    that name. *)
Lemma assign_stores p st st' :
  assign p st = Some st' →
  is_Some (expected_kind (get_name p)) →
  member st' (get_name p) = Some (get_parameter_value p).
Proof.
  destruct p as [name v].
  unfold assign, expected_kind, expected_kinds, assign_integer, assign_double.
  cbn [get_name get_parameter_value expected_kind_in]. intros Hassign Hknown.
  each_name name ltac:(
    destruct v; try discriminate;
    cbn in Hassign; injection Hassign as <-;
    unfold member, linear_axis, angular_axis, angular_adjustment_axis,
      linear_scale, angular_scale;
    cbn [String.eqb Ascii.eqb Bool.eqb andb]; fields;
    rewrite ?lookup_insert_eq, ?assign2_lookup; reflexivity).
  by destruct Hknown.
Qed.

(** ** [getVal] and the memory around [axes] *)

(** For an index that is -1 or not negative, what [getVal] returns does not
    depend on the memory around [axes], and its access, if any, is inside
    [axes]. *)
Theorem getVal_mapped_is_safe (wild_axis other_memory : Z → float) joy am sm f :
  (∀ idx, am !! f = Some idx → -1 ≤ idx) →
  getVal wild_axis joy am sm f = getVal other_memory joy am sm f
  ∧ all_within (getVal wild_axis joy am sm f).2.
Proof.
  intros Hmapped. split; [|by apply getVal_within].
  unfold getVal, axis_at.
  destruct (am !! f) as [idx|] eqn:Eidx; [|done].
  specialize (Hmapped idx eq_refl).
  destruct (Z.eqb_spec idx (-1)); [done|].
  destruct (sm !! f); [|done].
  destruct (Z.leb_spec (size_int (axes joy)) idx); [done|].
  cbn.
  assert ((0 <=? idx) = true) as -> by (apply Z.leb_le; lia).
  assert ((idx <? size_int (axes joy)) = true) as -> by (by apply Z.ltb_lt).
  done.
Qed.


(** * Further properties of the parameter callback *)

Lemma assign2_lookup_ne m k1 k2 (v : double) k1' k2' :
  (k1, k2) ≠ (k1', k2') →
  assign2 m k1 k2 v !! k1' ≫= (λ table, table !! k2')
  = m !! k1' ≫= (λ table, table !! k2').
Proof.
  intros Hne. unfold assign2.
  destruct (decide (k1 = k1')) as [->|Hk1].
  - rewrite lookup_insert_eq. cbn.
    rewrite lookup_insert_ne by congruence.
    rewrite (subscript_snd ∅ m k1'). by destruct (m !! k1').
  - rewrite lookup_insert_ne by done.
    unfold subscript. destruct (m !! k1) eqn:E; cbn; [done|].
    by rewrite lookup_insert_ne.
Qed.

(** An assignment leaves the members of all other names alone. *)
Lemma assign_frame p st st' n :
  assign p st = Some st' → n ≠ get_name p → member st' n = member st n.
Proof.
  destruct p as [name v].
  unfold assign, assign_integer, assign_double.
  cbn [get_name get_parameter_value]. intros Hassign Hn.
  each_name name ltac:(
    destruct v; try discriminate;
    cbn in Hassign; injection Hassign as <-;
    apply String.eqb_neq in Hn;
    unfold member, linear_axis, angular_axis, angular_adjustment_axis,
      linear_scale, angular_scale;
    rewrite Hn; fields;
    rewrite ?lookup_insert_ne by done;
    rewrite ?assign2_lookup_ne by congruence;
    reflexivity).
  by injection Hassign as <-.
Qed.

Lemma assign_loop_members parameters : ∀ st st' n,
  assign_loop parameters st = (st', true) →
  is_Some (expected_kind n) →
  member st' n
  = match last_value parameters n with
    | Some v => Some v
    | None => member st n
    end.
Proof.
  induction parameters as [|p rest IH]; intros st st' n Hloop Hknown.
  - by injection Hloop as <-.
  - cbn [assign_loop last_value] in *.
    destruct (assign p st) as [s1|] eqn:Hassign; [|discriminate].
    rewrite (IH _ _ _ Hloop Hknown).
    destruct (last_value rest n); [done|].
    destruct (String.eqb_spec (get_name p) n) as [<-|Hne].
    + by apply (assign_stores p st).
    + by apply (assign_frame p st).
Qed.

(** After a batch without a kind mismatch every recognized option holds the
    value of the last parameter of the batch that names it, and its previous
    value when the batch does not name it. *)
Theorem accepted_batch_stores_last_values parameters st n :
  List.find mismatched parameters = None →
  is_Some (expected_kind n) →
  member (param_callback parameters st).1 n
  = match last_value parameters n with
    | Some v => Some v
    | None => member st n
    end.
Proof.
  intros Hfind Hknown.
  pose proof (check_loop_find parameters) as Hcheck. rewrite Hfind in Hcheck.
  destruct Hcheck as (Hall & Hnone).
  destruct (assign_loop_total parameters st Hall) as [st' Hloop].
  unfold param_callback. rewrite Hnone, Hloop. cbn [fst].
  by apply assign_loop_members.
Qed.

(** A parameter of a name the callback does not know is skipped. *)
Lemma assign_unknown p st : expected_kind (get_name p) = None → assign p st = Some st.
Proof.
  destruct p as [name v].
  unfold assign, expected_kind, expected_kinds. cbn [get_name expected_kind_in].
  intros Hunknown.
  each_name name ltac:(discriminate).
  reflexivity.
Qed.

(** A batch of names the callback does not know succeeds and changes
    nothing, whatever the values are. *)
Theorem unknown_names_are_ignored parameters st :
  Forall (λ p, expected_kind (get_name p) = None) parameters →
  param_callback parameters st
  = (st, Some {| successful := true; reason := "" |}).
Proof.
  intros Hall. unfold param_callback.
  assert (Hcheck : check_loop parameters = None).
  { induction Hall as [|p rest Hp _ IH]; [done|]. cbn [check_loop].
    pose proof (check_mismatched p) as Hm. unfold mismatched in Hm.
    rewrite Hp in Hm. by destruct (check p) as [r|]; [destruct Hm|]. }
  assert (Hloop : assign_loop parameters st = (st, true)).
  { clear Hcheck. induction Hall as [|p rest Hp _ IH]; [done|].
    cbn [assign_loop]. by rewrite (assign_unknown p st Hp). }
  by rewrite Hcheck, Hloop.
Qed.

(** An assignment does not touch the state of the controller. *)
Lemma assign_controller p st st' :
  assign p st = Some st' →
  autorun_flag st' = autorun_flag st
  ∧ autorun_buffer st' = autorun_buffer st
  ∧ speed_x_max st' = speed_x_max st
  ∧ sent_disable_msg st' = sent_disable_msg st.
Proof.
  destruct p as [name v].
  unfold assign, assign_integer, assign_double.
  cbn [get_name get_parameter_value]. intros Hassign.
  each_name name ltac:(
    destruct v; try discriminate;
    cbn in Hassign; injection Hassign as <-; by repeat split).
  by injection Hassign as <-.
Qed.

(** No batch of parameter updates, accepted, rejected or stopped by a type
    exception, changes the toggle state, the stored button value, the ramp or
    the stop flag. *)
Theorem param_callback_keeps_controller_state parameters st :
  let s := (param_callback parameters st).1 in
  autorun_flag s = autorun_flag st
  ∧ autorun_buffer s = autorun_buffer st
  ∧ speed_x_max s = speed_x_max st
  ∧ sent_disable_msg s = sent_disable_msg st.
Proof.
  cbv zeta. unfold param_callback.
  destruct (check_loop parameters); [done|].
  assert (Hloop : ∀ ps s0,
            autorun_flag (assign_loop ps s0).1 = autorun_flag s0
            ∧ autorun_buffer (assign_loop ps s0).1 = autorun_buffer s0
            ∧ speed_x_max (assign_loop ps s0).1 = speed_x_max s0
            ∧ sent_disable_msg (assign_loop ps s0).1 = sent_disable_msg s0).
  { induction ps as [|p rest IH]; intros s0; [done|]. cbn [assign_loop].
    destruct (assign p s0) as [s1|] eqn:Hassign; [|done].
    destruct (assign_controller p s0 s1 Hassign) as (<- & <- & <- & <-).
    apply IH. }
  specialize (Hloop parameters st).
  by destruct (assign_loop parameters st).
Qed.

Lemma find_mismatched_app ps1 ps2 :
  List.find mismatched (ps1 ++ ps2) = None →
  List.find mismatched ps1 = None ∧ List.find mismatched ps2 = None.
Proof.
  induction ps1 as [|p rest IH]; [done|]. cbn [app List.find].
  by destruct (mismatched p).
Qed.

Lemma accepted_batch parameters st :
  List.find mismatched parameters = None →
  ∃ st', assign_loop parameters st = (st', true)
         ∧ param_callback parameters st
           = (st', Some {| successful := true; reason := "" |}).
Proof.
  intros Hfind.
  pose proof (check_loop_find parameters) as Hcheck. rewrite Hfind in Hcheck.
  destruct Hcheck as (Hall & Hnone).
  destruct (assign_loop_total parameters st Hall) as [st' Hloop].
  exists st'. split; [done|]. unfold param_callback. by rewrite Hnone, Hloop.
Qed.

Lemma assign_loop_app ps1 : ∀ ps2 st s1,
  assign_loop ps1 st = (s1, true) →
  assign_loop (ps1 ++ ps2) st = assign_loop ps2 s1.
Proof.
  induction ps1 as [|p rest IH]; intros ps2 st s1 Hloop.
  - by injection Hloop as <-.
  - cbn [app assign_loop] in *.
    destruct (assign p st); [by apply IH|discriminate].
Qed.

(** Two batches without a kind mismatch, sent one after the other, leave the
    members and give the result of the two sent as one batch. *)
Theorem accepted_batches_compose ps1 ps2 st :
  List.find mismatched (ps1 ++ ps2) = None →
  param_callback (ps1 ++ ps2) st
  = param_callback ps2 (param_callback ps1 st).1.
Proof.
  intros Hfind.
  destruct (find_mismatched_app _ _ Hfind) as [H1 H2].
  destruct (accepted_batch ps1 st H1) as (s1 & Hloop1 & ->). cbn [fst].
  destruct (accepted_batch ps2 s1 H2) as (s2 & Hloop2 & ->).
  destruct (accepted_batch (ps1 ++ ps2) st Hfind) as (s & Hloop & ->).
  rewrite (assign_loop_app _ _ _ _ Hloop1), Hloop2 in Hloop.
  by injection Hloop as <-.
Qed.

(** ** The properties on concrete samples *)

(** Closed statements are split into their conjuncts and each is decided by
    evaluation. *)
Ltac conjuncts := repeat match goal with |- _ ∧ _ => split end.
Ltac evaluate :=
  vm_compute; first [reflexivity | discriminate | by repeat constructor].

(** C1, on a sample the code can receive: with [enable_button] set to -2
    and the enable requirement on, the specification's order gives Disabled.
    The enable test has no lower bound, so the callback indexes [buttons] at
    -2; every other access of the sample is inside its vector.  On the heap
    the element at -2 of a one-button vector is not zero, and the sample is
    processed in Normal mode: the forward command 0.5 is published.  Were
    that element zero, the sample would be processed as Disabled. *)
Theorem C1_negative_enable_button_read_as_pressed :
  let joy := one_button 0 Float.one in
  let r := joyCallback chunk_header zeros_axis joy enable_unused in
  enable_button enable_unused = -2
  ∧ spec_mode (autorun_flag (toggled chunk_header joy enable_unused)) enable_unused joy
    = Disabled
  ∧ mode_taken chunk_header joy (toggled chunk_header joy enable_unused) = Normal
  ∧ mode_taken zeros_button joy (toggled zeros_button joy enable_unused) = Disabled
  ∧ sent_disable_msg (state_of r) = false
  ∧ ∃ cmd_vel_msg,
      trace_of r
      = [ Index Buttons 0 1; Index Buttons 0 1; Log 0 false false;
          Index Buttons (-2) 1; Index Axes 5 6; Index Axes 2 6;
          Publish cmd_vel_msg ]
      ∧ Msg.x (Msg.linear cmd_vel_msg) = Double.ratio 1 2.
Proof.
  cbv zeta. do 5 (split; [evaluate|]).
  eexists. split; vm_compute; reflexivity.
Qed.

(** An axis index below -1 passes the tests of [getVal] and is used: with
    [axis_linear.x] at -2, [axes] is indexed at -2. *)
Example negative_axis_index_is_read :
  Index Axes (-2) 6
  ∈ trace_of (joyCallback zeros_button zeros_axis enable_held axis_before_vector).
Proof. vm_compute. do 3 right. left. Qed.

(** Button 0 toggles autorun: up then down flips the flag, held and released
    do not. *)
Lemma C3_toggle_witness :
  let s1 b :=
    state_of (joyCallback zeros_button zeros_axis (one_button b Float.zero)
                autorun_on_button_0) in
  let s2 b1 b2 :=
    state_of (joyCallback zeros_button zeros_axis (one_button b2 Float.zero) (s1 b1)) in
  autorun_flag (s2 0 1) = negb (autorun_flag (s1 0))
  ∧ autorun_flag (s2 1 1) = autorun_flag (s1 1)
  ∧ autorun_flag (s2 1 0) = autorun_flag (s1 1).
Proof.
  cbv zeta.
  assert (Hge : 0 ≤ enable_autorun_button autorun_on_button_0)
    by (vm_compute; discriminate).
  pose proof (C3_toggle_on_rising_edge_only zeros_button zeros_axis
                autorun_on_button_0) as H.
  split; [|split].
  - destruct (H (one_button 0 Float.zero) (one_button 1 Float.zero) Hge)
      as (Hflip & _).
    apply Hflip; reflexivity.
  - destruct (H (one_button 1 Float.zero) (one_button 1 Float.zero) Hge)
      as (_ & Hheld & _).
    apply Hheld; reflexivity.
  - destruct (H (one_button 1 Float.zero) (one_button 0 Float.zero) Hge)
      as (_ & _ & Hfall).
    apply Hfall; reflexivity.
Defined.

(** C4 as stated fails: when button 2 toggles autorun and the sample has
    one button, [autorun_buffer] keeps whatever it held, so no value of the
    sample is stored. *)
Lemma C4_counterexample_button_absent :
  ¬ ∃ raw : Z, ∀ prev : Z,
      autorun_buffer
        (state_of (joyCallback zeros_button zeros_axis (one_button 1 Float.zero)
                     (autorun_on_button_2 prev)))
      = raw.
Proof.
  intros [raw H].
  pose proof (H 0) as H0. pose proof (H 1) as H1.
  vm_compute in H0, H1. congruence.
Qed.

(** C5 as stated fails, in three ways.  With the autorun forward scale at -1
    the limit is -1 and after a sample in Autorun mode [speed_x_max] is 1.
    With the scale at 0.1 the code clamps against 0.1 rounded to single
    precision, which is above 0.1, and eleven samples at full forward leave
    [speed_x_max] there.  A NaN axis value passes both comparisons of the
    clamp and leaves a NaN.  No access of these runs leaves its vector. *)
Lemma C5_counterexample_outside_limit :
  (let r := joyCallback zeros_button zeros_axis (one_button 1 (Float.of_Z (-1)))
              inverted_autorun in
   let s := state_of r in
   let limit := Double.mul (looks2 (scale_linear_map s) "autorun" "x") (Double.of_Z 1) in
   all_within (trace_of r)
   ∧ autorun_flag s = true
   ∧ limit = Double.of_Z (-1)
   ∧ speed_x_max s = Float.of_Z 1
   ∧ SFleb (Double.of_float (speed_x_max s)) limit = false)
  ∧ (let r := spin zeros_button zeros_axis (replicate 11 (one_button 1 Float.one))
                tenth_limit in
     let s := state_of r in
     let limit := Double.mul (looks2 (scale_linear_map s) "autorun" "x") (Double.of_Z 1) in
     all_within (trace_of r)
     ∧ limit = Double.ratio 1 10
     ∧ speed_x_max s = Float.of_double (Double.ratio 1 10)
     ∧ SFleb (Double.of_float (speed_x_max s)) limit = false)
  ∧ (let r := joyCallback zeros_button zeros_axis (one_button 1 S754_nan)
                autorun_on_button_0 in
     let s := state_of r in
     all_within (trace_of r)
     ∧ autorun_flag s = true
     ∧ speed_x_max s = S754_nan
     ∧ ∀ limit, SFleb (speed_x_max s) limit = false).
Proof.
  cbv zeta. conjuncts; evaluate.
Qed.

(** One sample at full forward from rest with the limit at 1. *)
Lemma C5_ramp_witness :
  let s := state_of (joyCallback zeros_button zeros_axis (one_button 1 Float.one)
                       autorun_on_button_0) in
  speed_x_max s = S754_nan
  ∨ (SFleb (SFopp (x_limit s)) (speed_x_max s) = true
     ∧ SFleb (speed_x_max s) (x_limit s) = true).
Proof.
  apply (C5_ramp_speed_within_nonnegative_limit zeros_button zeros_axis
           autorun_on_button_0 (one_button 1 Float.one)).
  - vm_compute. repeat constructor.
  - vm_compute. reflexivity.
Defined.



(** Autorun ramps up, is toggled off, stays off for a sample and is toggled
    on again: the ramp is back at one tenth. *)
Lemma C7_restart_witness :
  let st :=
    state_of (spin zeros_button zeros_axis
                [one_button 1 Float.one; one_button 1 Float.one;
                 one_button 0 Float.one; one_button 1 Float.one]
                autorun_on_button_0) in
  let s1 := state_of (joyCallback zeros_button zeros_axis (one_button 0 Float.one) st) in
  let s2 := state_of (joyCallback zeros_button zeros_axis (one_button 1 Float.one) s1) in
  speed_x_max s1 = Float.zero ∧ speed_x_max s2 = Float.ratio 1 10.
Proof.
  cbv zeta.
  match goal with
  | |- speed_x_max (state_of (joyCallback _ _ ?j1 ?st)) = _ ∧ _ =>
    destruct (C7_ramp_restarts_from_zero zeros_button zeros_axis st j1
                (one_button 1 Float.one))
      as (_ & H1 & H2)
  end.
  - vm_compute. repeat constructor.
  - vm_compute. repeat constructor.
  - vm_compute. reflexivity.
  - vm_compute. reflexivity.
  - split; [exact H1|]. rewrite H2. vm_compute. reflexivity.
Defined.

(** C8 as stated fails: with the autorun yaw scale at 0.7 and both yaw
    sources at 1 the sum exceeds the limit 0.7, and the angular z sent is
    0.7 rounded to single precision, which is below 0.7: neither the limit
    nor its opposite.  No access of the sample leaves its vector. *)
Lemma C8_counterexample_single_precision_limit :
  let r := joyCallback zeros_button zeros_axis yaw_both yaw_limited in
  let yaw_limit :=
    Double.mul (looks2 (scale_angular_map yaw_limited) "autorun" "yaw") (Double.of_Z 1) in
  let sum := Double.add (angular_input zeros_axis yaw_both yaw_limited "autorun" "yaw")
               (adjustment_input zeros_axis yaw_both yaw_limited "autorun" "yaw") in
  all_within (trace_of r)
  ∧ mode_taken zeros_button yaw_both (toggled zeros_button yaw_both yaw_limited)
    = Autorun
  ∧ yaw_limit = Double.ratio 7 10
  ∧ SFltb yaw_limit sum = true
  ∧ ∃ cmd_vel_msg,
      published (trace_of r) = [cmd_vel_msg]
      ∧ Msg.z (Msg.angular cmd_vel_msg)
        = Double.of_float (Float.of_double (Double.ratio 7 10))
      ∧ Msg.z (Msg.angular cmd_vel_msg) ≠ yaw_limit
      ∧ Msg.z (Msg.angular cmd_vel_msg) ≠ SFopp yaw_limit
      ∧ SFltb (Msg.z (Msg.angular cmd_vel_msg)) yaw_limit = true.
Proof.
  cbv zeta. do 4 (split; [evaluate|]).
  eexists. split; [vm_compute; reflexivity|]. conjuncts; evaluate.
Qed.

(** Both yaw sources at 1 with the limit at 1: the yaw sent is 1, not 2. *)
Lemma C8_yaw_witness :
  ∃ cmd_vel_msg,
    published (trace_of (joyCallback zeros_button zeros_axis yaw_both
                           autorun_on_button_0))
    = [cmd_vel_msg]
    ∧ Msg.z (Msg.angular cmd_vel_msg) = Double.of_Z 1.
Proof.
  destruct (C8_autorun_yaw_is_clamped_sum zeros_button zeros_axis
              autorun_on_button_0 yaw_both)
    as (cmd & Hpub & yaw & Hz & Hyaw & _).
  - vm_compute. repeat constructor.
  - vm_compute. reflexivity.
  - exists cmd. split; [exact Hpub|].
    rewrite Hz, Hyaw. vm_compute. reflexivity.
Defined.

(** Three samples with the enable button released, on a pad that has the
    toggle button: one zero command. *)
Lemma C9_stop_witness :
  published
    (trace_of (spin zeros_button zeros_axis
                 [enable_released; enable_released; enable_released]
                 autorun_on_button_0))
  = [Msg.zero].
Proof.
  apply (proj2 (C9_single_stop_per_disabled_interval zeros_button zeros_axis)
           autorun_on_button_0 [enable_released; enable_released; enable_released]).
  - vm_compute. repeat constructor.
  - vm_compute. repeat constructor.
Defined.

(** A batch with one value of the wrong kind changes nothing, also not the
    members named before it in the batch. *)
Example param_callback_rejects :
  param_callback
    [ {| get_name := "enable_button"; get_parameter_value := IntegerValue 3 |};
      {| get_name := "scale_linear.x"; get_parameter_value := IntegerValue 2 |} ]
    initial
  = (initial,
     Some {| successful := false;
             reason := "Only double values can be set for 'scale_linear.x'." |}).
Proof. vm_compute. reflexivity. Qed.

(** The scenario of the specification: enable button 5 held, forward axis 1
    at 0.8 and scale 0.5.  The forward speed sent is 0.8 rounded to single
    precision, halved: close to 0.4, not the [double] 0.4. *)
Example enable_held_scenario :
  let st :=
    with_parameters
      [ {| get_name := "enable_autorun_button"; get_parameter_value := IntegerValue 0 |};
        {| get_name := "axis_linear.x"; get_parameter_value := IntegerValue 1 |} ]
      initial in
  let joy := {| axes := [Float.zero; Float.ratio 8 10]; buttons := [0; 0; 0; 0; 0; 1] |} in
  all_within (trace_of (joyCallback zeros_button zeros_axis joy st))
  ∧ ∃ cmd_vel_msg,
      published (trace_of (joyCallback zeros_button zeros_axis joy st)) = [cmd_vel_msg]
      ∧ Msg.x (Msg.linear cmd_vel_msg)
        = Double.of_float (Float.ratio 4 10)
      ∧ Msg.x (Msg.linear cmd_vel_msg) ≠ Double.ratio 4 10.
Proof.
  cbv zeta. split; [evaluate|].
  eexists. split; [vm_compute; reflexivity|]. split; evaluate.
Qed.

(** The scenario of the specification: ten samples at full forward reach the
    limit 1, an eleventh stays there. *)
Example ten_samples_reach_the_limit :
  speed_x_max (state_of (spin zeros_button zeros_axis
                           (replicate 10 (one_button 1 Float.one)) autorun_on_button_0))
  = Float.one
  ∧ speed_x_max (state_of (spin zeros_button zeros_axis
                             (replicate 11 (one_button 1 Float.one)) autorun_on_button_0))
    = Float.one.
Proof. split; vm_compute; reflexivity. Qed.

(** ** The further properties on concrete samples *)

(** The forward axis of the defaults is index 5 of a six-axis sample. *)
Lemma getVal_mapped_is_safe_witness :
  getVal zeros_axis enable_held (axis_linear_map initial) {[ "x" := Double.of_Z 1 ]} "x"
  = getVal (λ _, Float.one) enable_held (axis_linear_map initial) {[ "x" := Double.of_Z 1 ]} "x"
  ∧ all_within
      (getVal zeros_axis enable_held (axis_linear_map initial) {[ "x" := Double.of_Z 1 ]} "x").2.
Proof.
  apply getVal_mapped_is_safe.
  intros idx H. vm_compute in H. injection H as <-. lia.
Defined.

(** Button 0 toggles autorun, the enable button is 5, every axis index is -1
    or more: a one-button sample is read inside its bounds. *)
Lemma guarded_accesses_witness :
  all_within
    (trace_of (joyCallback zeros_button zeros_axis (one_button 1 Float.one)
                 autorun_on_button_0)).
Proof.
  apply guarded_accesses_within_bounds.
  - vm_compute. split; [discriminate|reflexivity].
  - left. vm_compute. discriminate.
  - intros f i [H|[H|H]]; revert f i H;
      match goal with
      | |- ∀ f i, ?m !! f = Some i → _ =>
        change (map_Forall (λ _ i, -1 ≤ i) m)
      end;
      apply (bool_decide_unpack _); vm_compute; exact I.
Defined.

(** Button 0 toggles autorun and is up, the enable button 5 is held: Normal
    mode. *)
Lemma mode_priority_witness :
  let st := autorun_on_button_0 in
  let joy := enable_held in
  let mode := spec_mode (autorun_flag (toggled zeros_button joy st)) st joy in
  mode = Normal
  ∧ state_of (joyCallback zeros_button zeros_axis joy st)
    = state_of (handler zeros_axis joy mode (prepared zeros_button joy st))
  ∧ published (trace_of (joyCallback zeros_button zeros_axis joy st))
    = published (trace_of (handler zeros_axis joy mode (prepared zeros_button joy st))).
Proof.
  cbv zeta. split; [vm_compute; reflexivity|].
  apply mode_priority_with_valid_enable_button.
  - vm_compute. repeat constructor.
  - left. vm_compute. discriminate.
Defined.

(** The same sample with the forward axis at 1: the command is 0.5
    forward. *)
Lemma direct_modes_witness :
  ∃ cmd_vel_msg,
    published (trace_of (joyCallback zeros_button zeros_axis enable_held
                           autorun_on_button_0))
    = [cmd_vel_msg]
    ∧ Msg.x (Msg.linear cmd_vel_msg) = Double.ratio 1 2.
Proof.
  destruct (direct_modes_publish_scaled_axes zeros_button zeros_axis enable_held
              autorun_on_button_0 "normal") as [Hpub _].
  - vm_compute. repeat constructor.
  - left. split; [vm_compute; reflexivity|reflexivity].
  - eexists. split; [exact Hpub|]. vm_compute. reflexivity.
Defined.

(** Autorun engaged by button 0 with the forward axis at 1: the command
    carries the ramp, one tenth in single precision. *)
Lemma autorun_command_witness :
  ∃ cmd_vel_msg,
    published (trace_of (joyCallback zeros_button zeros_axis (one_button 1 Float.one)
                           autorun_on_button_0))
    = [cmd_vel_msg]
    ∧ Msg.x (Msg.linear cmd_vel_msg) = Double.of_float (Float.ratio 1 10).
Proof.
  eexists. split.
  - apply autorun_publishes_ramp_and_scaled_axes.
    + vm_compute. repeat constructor.
    + vm_compute. reflexivity.
  - vm_compute. reflexivity.
Defined.

(** The enable button held on a pad that has the toggle button: one
    command. *)
Lemma at_most_one_command_witness :
  let joy := enable_held in
  let st := autorun_on_button_0 in
  (length (published (trace_of (joyCallback zeros_button zeros_axis joy st))) ≤ 1)%nat
  ∧ (published (trace_of (joyCallback zeros_button zeros_axis joy st)) = []
     ↔ mode_taken zeros_button joy (toggled zeros_button joy st) = Disabled
       ∧ sent_disable_msg st = true).
Proof.
  apply (at_most_one_command_per_sample zeros_button zeros_axis enable_held
           autorun_on_button_0).
  vm_compute. repeat constructor.
Defined.

(** After two samples at full forward the ramp holds two tenths added in
    single precision; a third sample with the axis centred leaves it there. *)
Lemma autorun_hold_witness :
  let st :=
    state_of (spin zeros_button zeros_axis
                [one_button 1 Float.one; one_button 1 Float.one]
                autorun_on_button_0) in
  speed_x_max (state_of (joyCallback zeros_button zeros_axis
                           (one_button 1 Float.zero) st))
  = Float.add (Float.ratio 1 10) (Float.ratio 1 10).
Proof.
  cbv zeta.
  match goal with
  | |- speed_x_max (state_of (joyCallback _ _ ?joy ?st)) = _ =>
    destruct (autorun_holds_speed_without_input zeros_button zeros_axis joy st false)
      as [_ [H|[_ H]]]
  end.
  - vm_compute. reflexivity.
  - vm_compute. reflexivity.
  - vm_compute. reflexivity.
  - vm_compute. reflexivity.
  - rewrite H. vm_compute. reflexivity.
  - vm_compute in H. discriminate.
Defined.

(** The autorun scale at -1: one sample leaves the ramp at 1. *)
Lemma negative_limit_witness :
  speed_x_max
    (state_of (joyCallback zeros_button zeros_axis (one_button 1 Float.one)
                 inverted_autorun))
  = Float.of_Z 1.
Proof.
  destruct (negative_limit_pins_speed zeros_button zeros_axis
              (one_button 1 Float.one) inverted_autorun) as [H|[H _]].
  - vm_compute. repeat constructor.
  - vm_compute. reflexivity.
  - vm_compute. reflexivity.
  - rewrite H. vm_compute. reflexivity.
  - vm_compute in H. discriminate.
Defined.

(** Button 0 up, down, up, down: two rises, autorun is off again. *)
Lemma toggle_parity_witness :
  autorun_flag
    (state_of (spin zeros_button zeros_axis
                 [one_button 0 Float.zero; one_button 1 Float.zero;
                  one_button 0 Float.zero; one_button 1 Float.zero]
                 autorun_on_button_0))
  = false.
Proof.
  rewrite autorun_flag_follows_parity_of_rises.
  - vm_compute. reflexivity.
  - vm_compute. discriminate.
  - repeat constructor; vm_compute; reflexivity.
Defined.

(** The defaults leave the toggle button at -1: autorun stays off. *)
Lemma unconfigured_toggle_witness :
  autorun_flag
    (state_of (spin zeros_button zeros_axis [enable_held; enable_released] initial))
  = false.
Proof.
  destruct (unconfigured_toggle_never_engages zeros_button zeros_axis
              [enable_held; enable_released] initial) as [-> _].
  - vm_compute. reflexivity.
  - reflexivity.
Defined.

(** A batch that sets the forward scale twice: the second value is kept. *)
Lemma accepted_batch_witness :
  member
    (param_callback
       [ {| get_name := "scale_linear.x"; get_parameter_value := DoubleValue (Double.of_Z 2) |};
         {| get_name := "enable_button"; get_parameter_value := IntegerValue 3 |};
         {| get_name := "scale_linear.x"; get_parameter_value := DoubleValue (Double.of_Z 3) |} ]
       initial).1
    "scale_linear.x"
  = Some (DoubleValue (Double.of_Z 3)).
Proof.
  rewrite accepted_batch_stores_last_values.
  - reflexivity.
  - vm_compute. reflexivity.
  - vm_compute. by eexists.
Defined.

(** A parameter of another node's name. *)
Lemma unknown_names_witness :
  param_callback
    [ {| get_name := "use_sim_time"; get_parameter_value := BoolValue true |} ]
    initial
  = (initial, Some {| successful := true; reason := "" |}).
Proof.
  apply unknown_names_are_ignored.
  repeat constructor.
Defined.

(** The enable button, then the forward scale. *)
Lemma accepted_batches_witness :
  param_callback
    ([ {| get_name := "enable_button"; get_parameter_value := IntegerValue 3 |} ]
     ++ [ {| get_name := "scale_linear.x"; get_parameter_value := DoubleValue (Double.of_Z 2) |} ])
    initial
  = param_callback
      [ {| get_name := "scale_linear.x"; get_parameter_value := DoubleValue (Double.of_Z 2) |} ]
      (param_callback
         [ {| get_name := "enable_button"; get_parameter_value := IntegerValue 3 |} ]
         initial).1.
Proof.
  apply accepted_batches_compose. vm_compute. reflexivity.
Defined.
